(** * structured-logging-echo: a verification development

    The repository is a small Go program: package [logger] decorates an
    arbitrary [slog.Handler] so that every record carries a
    [meta_information] group read from the request context; package [main]
    holds two echo middlewares that populate that context, two [LogValuer]
    domain types and a fallback id generator; [legacy_logger.go] is the
    unstructured example the README starts from.

    The embedding is shallow.  Go values that live behind a pointer (the
    backing array of a slice) are kept in an explicit heap, panics are an
    outcome of their own, and interfaces are type classes. *)

From Stdlib Require Import ZArith Lia Ascii.
From stdpp Require Import base tactics option list strings gmap.

Local Open Scope Z_scope.
Local Set Warnings "-register-all".

(** ** The Go runtime: dynamic values, panics, state *)

Module Go.

(** A value boxed in an interface ([any]).  Two interface values are equal
    when their dynamic types and their values are; [ANamed] stands for a value
    of any other comparable type, identified by its type name and its
    printed form. *)
Inductive any : Type :=
| ANil
| AString (s : string)
| AInt (i : Z)
| ABool (b : bool)
| ANamed (type_name repr : string).

#[global] Instance any_eq_dec : EqDecision any.
Proof. solve_decision. Defined.

(** The result of running Go code: it returns, or it panics. *)
Inductive Outcome (A : Type) : Type :=
| Ret (a : A)
| Panic (msg : string).
Arguments Ret {A} a.
Arguments Panic {A} msg.

(** Go's [error] interface: [None] is the nil error. *)
Definition error : Type := option string.

Definition obind {A B} (o : Outcome A) (k : A -> Outcome B) : Outcome B :=
  match o with
  | Ret a => k a
  | Panic msg => Panic msg
  end.

(** Code that reads and writes a state [S] and may panic.  A panic keeps the
    state reached so far and skips the rest. *)
Definition M (S A : Type) : Type := S -> Outcome A * S.

Definition ret {S A} (a : A) : M S A := fun s => (Ret a, s).

Definition bind {S A B} (m : M S A) (k : A -> M S B) : M S B :=
  fun s =>
    match m s with
    | (Ret a, s') => k a s'
    | (Panic msg, s') => (Panic msg, s')
    end.

Definition lift {S A} (o : Outcome A) : M S A := fun s => (o, s).

Definition gets {S A} (f : S -> A) : M S A := fun s => (Ret (f s), s).

Definition modify {S} (f : S -> S) : M S unit := fun s => (Ret tt, f s).

(** x.(string): the single-value type assertion, which panics on any other
    dynamic type (and on nil). *)
Definition assert_string (x : any) : Outcome string :=
  match x with
  | AString s => Ret s
  | ANil => Panic "interface conversion: interface {} is nil, not string"
  | AInt _ => Panic "interface conversion: interface {} is int, not string"
  | ABool _ => Panic "interface conversion: interface {} is bool, not string"
  | ANamed ty _ => Panic ("interface conversion: interface {} is " +:+ ty +:+ ", not string")
  end.

End Go.

Declare Scope go_scope.
Delimit Scope go_scope with go.
Notation "x <- c1 ;; c2" := (Go.bind c1 (fun x => c2))
  (at level 100, c1 at next level, right associativity) : go_scope.
Notation "c1 ;;; c2" := (Go.bind c1 (fun _ => c2))
  (at level 100, right associativity) : go_scope.
Notation "x <~ c1 ;; c2" := (Go.obind c1 (fun x => c2))
  (at level 100, c1 at next level, right associativity) : go_scope.

(** ** Package context *)

Module Context.
Import Go.

(** A context is the chain of [valueCtx] nodes down to [Background]: the
    newest binding comes first.  Nothing is ever removed or overwritten; a
    newer binding of a key only hides the older ones. *)
Abbreviation Context := (list (any * any)).

Definition Background : Context := [].

(** context.WithValue(parent, key, val): a new node in front of the parent;
    a nil key panics. *)
Definition WithValue (parent : Context) (key val : any) : Outcome Context :=
  if decide (key = ANil) then Panic "nil key"
  else Ret ((key, val) :: parent).

(** ctx.Value(key): the value of the first node whose key equals [key], nil
    when no node has it. *)
Fixpoint Value (ctx : Context) (key : any) : any :=
  match ctx with
  | [] => ANil
  | (k, v) :: parent => if decide (k = key) then v else Value parent key
  end.

End Context.

(** ** Package log/slog: values, attributes, records, handlers

    The part of the standard library the repository calls, after
    log/slog/value.go, attr.go, record.go and handler.go of Go 1.22 and
    later.  [Record] keeps the layout of the Go struct, since passing one by
    value copies the inline array but shares the backing array of the
    overflow slice. *)

Module Slog.
Import Go.

Inductive Kind : Type :=
| KindAny | KindBool | KindDuration | KindFloat64 | KindInt64
| KindString | KindTime | KindUint64 | KindGroup | KindLogValuer.

#[global] Instance Kind_eq_dec : EqDecision Kind.
Proof. solve_decision. Defined.

Record AttrOf (V : Type) : Type := mkAttr { Key : string; Val : V }.
Arguments mkAttr {V} Key Val.
Arguments Key {V} _.
Arguments Val {V} _.

(** slog.Value, one constructor per kind that carries data here (a value of
    kind LogValuer is resolved by the frontend before a handler sees it). *)
Inductive Value : Type :=
| AnyV (x : any)
| BoolV (b : bool)
| DurationV (d : Z)
| Float64V (bits : Z)
| Int64V (i : Z)
| StringV (s : string)
| TimeV (t : Z)
| Uint64V (u : Z)
| GroupV (g : list (AttrOf Value)).

Definition Attr : Type := AttrOf Value.

Definition kind (v : Value) : Kind :=
  match v with
  | AnyV _ => KindAny
  | BoolV _ => KindBool
  | DurationV _ => KindDuration
  | Float64V _ => KindFloat64
  | Int64V _ => KindInt64
  | StringV _ => KindString
  | TimeV _ => KindTime
  | Uint64V _ => KindUint64
  | GroupV _ => KindGroup
  end.

(** Level constants. *)
Definition LevelDebug : Z := -4.
Definition LevelInfo : Z := 0.
Definition LevelWarn : Z := 4.
Definition LevelError : Z := 8.

Definition StringValue (value : string) : Value := StringV value.
Definition Int64Value (v : Z) : Value := Int64V v.
(** IntValue(v int) is Int64Value(int64(v)); int is 64 bits wide. *)
Definition IntValue (v : Z) : Value := Int64Value v.
Definition BoolValue (v : bool) : Value := BoolV v.

(** AnyValue switches on the dynamic type of its argument. *)
Definition AnyValue (v : any) : Value :=
  match v with
  | AString s => StringValue s
  | AInt i => Int64Value i
  | ABool b => BoolValue b
  | _ => AnyV v
  end.

(** v.isEmptyGroup(): kind Group with no attribute. *)
Definition isEmptyGroup (v : Value) : bool :=
  match v with
  | GroupV [] => true
  | _ => false
  end.

(** a.isEmpty(): the zero Attr (empty key, zero Value). *)
Definition isEmpty (a : Attr) : bool :=
  match Key a, Val a with
  | EmptyString, AnyV ANil => true
  | _, _ => false
  end.

Definition zeroAttr : Attr := mkAttr "" (AnyV ANil).

Definition countEmptyGroups (attrs : list Attr) : nat :=
  length (filter (fun a => isEmptyGroup (Val a) = true) attrs).

(** GroupValue drops the empty groups among its arguments. *)
Definition GroupValue (attrs : list Attr) : Value :=
  GroupV (filter (fun a => isEmptyGroup (Val a) = false) attrs).

Definition String (key value : string) : Attr := mkAttr key (StringValue value).
Definition Any (key : string) (value : any) : Attr := mkAttr key (AnyValue value).

(** slog.Group(key, args...) on arguments that are all Attr values, as at
    its one call site: argsToAttrSlice then returns them as they are. *)
Definition Group (key : string) (args : list Attr) : Attr :=
  mkAttr key (GroupValue args).

(** *** Slices of Attr and the heap of their backing arrays *)

(** A slice header.  Every slice of a Record starts at index 0 of its array,
    so no offset is kept; the nil slice has no array. *)
Record slice : Type := mkSlice { ptr : option nat; len : nat; cap : nat }.

Definition nil_slice : slice := mkSlice None 0 0.

(** Backing arrays, by address.  Allocation takes the next address. *)
Abbreviation Heap := (list (list Attr)).

(** The state slog code runs in: the heap, the runtime's growth policy for
    append (old capacity and needed length to new capacity; the model never
    gives less than what is needed) and the world [W] the sink writes to. *)
Record St (W : Type) : Type := mkSt
  { heap : Heap; growslice : nat -> nat -> nat; world : W }.
Arguments mkSt {W} heap growslice world.
Arguments heap {W} _.
Arguments growslice {W} _.
Arguments world {W} _.

Definition set_heap {W} (f : Heap -> Heap) (st : St W) : St W :=
  mkSt (f (heap st)) (growslice st) (world st).

Definition set_world {W} (f : W -> W) (st : St W) : St W :=
  mkSt (heap st) (growslice st) (f (world st)).

Definition array_of (h : Heap) (s : slice) : list Attr :=
  match ptr s with
  | Some l => default [] (h !! l)
  | None => []
  end.

(** The elements of a slice, s[0:len]. *)
Definition elems (h : Heap) (s : slice) : list Attr :=
  take (len s) (array_of h s).

Definition newcap {W} (st : St W) (old needed : nat) : nat :=
  Nat.max needed (growslice st old needed).

(** append(s, a): in place when there is room, into a new array otherwise. *)
Definition append {W} (s : slice) (a : Attr) : M (St W) slice :=
  fun st =>
    match ptr s with
    | Some l =>
        if decide (len s < cap s)%nat then
          (Ret (mkSlice (Some l) (S (len s)) (cap s)),
           set_heap (alter (fun arr => <[len s := a]> arr) l) st)
        else
          let c := newcap st (cap s) (S (len s)) in
          (Ret (mkSlice (Some (length (heap st))) (S (len s)) c),
           set_heap (fun h => h ++ [elems h s ++ a :: replicate (c - S (len s)) zeroAttr]) st)
    | None =>
        let c := newcap st 0 1 in
        (Ret (mkSlice (Some (length (heap st))) 1 c),
         set_heap (fun h => h ++ [a :: replicate (c - 1) zeroAttr]) st)
    end.

(** slices.Grow(s, n): room for n more elements; when the spare capacity is
    short, the whole array s[:cap] moves to a new one. *)
Definition Grow {W} (s : slice) (n : nat) : M (St W) slice :=
  fun st =>
    if decide (cap s - len s < n)%nat then
      let c := newcap st (cap s) (len s + n) in
      (Ret (mkSlice (Some (length (heap st))) (len s) c),
       set_heap (fun h => h ++ [take (cap s) (array_of h s) ++ replicate (c - cap s) zeroAttr]) st)
    else (Ret s, st).

(** slices.Clip(s) is s[:len(s):len(s)]. *)
Definition Clip (s : slice) : slice := mkSlice (ptr s) (len s) (len s).

(** *** Record

    type Record struct {
        Time time.Time; Message string; Level Level; PC uintptr
        front  [nAttrsInline]Attr  // the start of the list of Attrs
        nFront int                 // the number of Attrs in front
        back   []Attr              // the list of Attrs except for those in front
    }

    record.go states two invariants for [back]: it is only used once
    [front] is full, and unused array elements are zero, which is how
    AddAttrs detects that a copy was appended to. *)

Definition nAttrsInline : nat := 5.

Record Record : Type := mkRecord
  { Time : Z; Message : string; Level : Z; PC : Z;
    front : list Attr;      (* [nAttrsInline]Attr *)
    nFront : nat;
    back : slice }.

Definition NewRecord (t : Z) (level : Z) (msg : string) (pc : Z) : Record :=
  mkRecord t msg level pc (replicate nAttrsInline zeroAttr) 0 nil_slice.

Definition set_back (r : Record) (b : slice) : Record :=
  mkRecord (Time r) (Message r) (Level r) (PC r) (front r) (nFront r) b.

Definition push_front (r : Record) (a : Attr) : Record :=
  mkRecord (Time r) (Message r) (Level r) (PC r)
    (<[nFront r := a]> (front r)) (S (nFront r)) (back r).

(** r.Clone() *)
Definition Clone (r : Record) : Record := set_back r (Clip (back r)).

(** r.NumAttrs() *)
Definition NumAttrs (r : Record) : nat := (nFront r + len (back r))%nat.

(** The sequence r.Attrs(f) walks when f keeps returning true. *)
Definition Attrs (h : Heap) (r : Record) : list Attr :=
  take (nFront r) (front r) ++ elems h (back r).

(** The first loop of AddAttrs: attributes go to the inline array while it
    has room; the result is the record and attrs[i:]. *)
Fixpoint fill_front (r : Record) (attrs : list Attr) : Record * list Attr :=
  match attrs with
  | [] => (r, [])
  | a :: rest =>
      if decide (nFront r < nAttrsInline)%nat then
        if isEmptyGroup (Val a) then fill_front r rest
        else fill_front (push_front r a) rest
      else (r, attrs)
  end.

(** The last loop of AddAttrs. *)
Fixpoint append_nonempty {W} (b : slice) (attrs : list Attr) : M (St W) slice :=
  match attrs with
  | [] => ret b
  | a :: rest =>
      if isEmptyGroup (Val a) then append_nonempty b rest
      else (b' <- append b a ;; append_nonempty b' rest)%go
  end.

Definition bugAttr : Attr :=
  String "!BUG" "AddAttrs unsafely called on copy of Record made without using Record.Clone".

(** The slot just past the end of a slice with spare capacity is not the
    zero Attr: a copy of the record was appended to. *)
Definition modified_copy (h : Heap) (b : slice) : bool :=
  if decide (len b < cap b)%nat
  then negb (isEmpty (default zeroAttr (array_of h b !! len b)))
  else false.

(** (r *Record).AddAttrs(attrs...), returning the updated record:

    for i = 0; i < len(attrs) && r.nFront < len(r.front); i++ {
        a := attrs[i]
        if a.Value.isEmptyGroup() { continue }
        r.front[r.nFront] = a
        r.nFront++
    }
    if cap(r.back) > len(r.back) {
        end := r.back[:len(r.back)+1][len(r.back)]
        if !end.isEmpty() {
            // Don't panic; copy and muddle through.
            r.back = slices.Clip(r.back)
            r.back = append(r.back, String("!BUG", "AddAttrs unsafely called ..."))
        }
    }
    ne := countEmptyGroups(attrs[i:])
    r.back = slices.Grow(r.back, len(attrs[i:])-ne)
    for _, a := range attrs[i:] {
        if !a.Value.isEmptyGroup() { r.back = append(r.back, a) }
    }

    (Go 1.21 panicked where later versions add the !BUG attribute.) *)
Definition AddAttrs {W} (r : Record) (attrs : list Attr) : M (St W) Record :=
  let '(r1, rest) := fill_front r attrs in
  (h <- gets heap ;;
   b1 <- (if modified_copy h (back r1)
          then append (Clip (back r1)) bugAttr
          else ret (back r1)) ;;
   let ne := countEmptyGroups rest in
   b2 <- Grow b1 (length rest - ne) ;;
   b3 <- append_nonempty b2 rest ;;
   ret (set_back r1 b3))%go.

(** The Handler interface.  An implementation is a type [H] of handler
    values; Handle runs in the state and may fail or panic. *)
Class Handler (W H : Type) : Type := mkHandler
  { Enabled : H -> Context.Context -> Z -> bool;
    Handle : H -> Context.Context -> Record -> M (St W) error;
    WithAttrs : H -> list Attr -> H;
    WithGroup : H -> string -> H }.

End Slog.

(** ** Package logger (logger.go) *)

Module Logger.
Import Go.

(** ContextHandler embeds the slog.Handler it decorates. *)
Record ContextHandler (H : Type) : Type := mkContextHandler { Handler : H }.
Arguments mkContextHandler {H} Handler.
Arguments Handler {H} _.

(** getDefaultValueFromContext *)
Definition getDefaultValueFromContext (ctx : Context.Context) (key : string) : Outcome string :=
  let value := "" in
  let ctxValue := Context.Value ctx (AString key) in
  if decide (ctxValue <> ANil) then
    (value <~ assert_string ctxValue ;; Ret value)%go
  else Ret value.

(** (ch ContextHandler).addRequestId; the receiver is not used. *)
Definition addRequestId (ctx : Context.Context) : Outcome (list Slog.Attr) :=
  let attrs : list Slog.Attr := [] in
  (correlation <~ getDefaultValueFromContext ctx "correlation_id" ;;
   method <~ getDefaultValueFromContext ctx "request_method" ;;
   path <~ getDefaultValueFromContext ctx "request_path" ;;
   agent <~ getDefaultValueFromContext ctx "request_user_agent" ;;
   let group :=
     Slog.Group "meta_information"
       [Slog.String "correlation_id" correlation;
        Slog.String "request_method" method;
        Slog.String "request_path" path;
        Slog.String "request_user_agent" agent] in
   Ret (attrs ++ [group]))%go.

Section Methods.
Context {W H : Type} `{!Slog.Handler W H}.

(** Enabled *)
Definition Enabled (ch : ContextHandler H) (ctx : Context.Context) (level : Z) : bool :=
  Slog.Enabled (Handler ch) ctx level.

(** Handle: [r] is the callee's copy of the record. *)
Definition Handle (ch : ContextHandler H) (ctx : Context.Context) (r : Slog.Record)
  : M (Slog.St W) error :=
  (attrs <- lift (addRequestId ctx) ;;
   r <- Slog.AddAttrs r attrs ;;
   Slog.Handle (Handler ch) ctx r)%go.

(** WithAttrs *)
Definition WithAttrs (ch : ContextHandler H) (attrs : list Slog.Attr) : ContextHandler H :=
  mkContextHandler (Slog.WithAttrs (Handler ch) attrs).

(** WithGroup *)
Definition WithGroup (ch : ContextHandler H) (name : string) : ContextHandler H :=
  mkContextHandler (Slog.WithGroup (Handler ch) name).

(** ContextHandler implements slog.Handler. *)
#[global] Instance ContextHandler_Handler : Slog.Handler W (ContextHandler H) :=
  Slog.mkHandler W (ContextHandler H) Enabled Handle WithAttrs WithGroup.

End Methods.

End Logger.

(** ** An in-memory sink

    Not part of the repository: a handler in the manner of slog's own, used
    to run the decorator on concrete inputs.  It keeps what WithAttrs and
    WithGroup gave it, filters by level, and writes one entry per record to
    the world, or fails with its write error. *)

Module MemSink.
Import Go.

Record Entry : Type := mkEntry
  { entry_level : Z; entry_msg : string; entry_attrs : list Slog.Attr }.

Record MemHandler : Type := mkMemHandler
  { minLevel : Z;
    preformatted : list Slog.Attr;
    groups : list string;
    writeError : error }.

Definition qualify (gs : list string) (attrs : list Slog.Attr) : list Slog.Attr :=
  foldr (fun g inner => [Slog.Group g inner]) attrs gs.

Definition mem_Enabled (h : MemHandler) (_ : Context.Context) (level : Z) : bool :=
  minLevel h <=? level.

Definition mem_Handle (h : MemHandler) (_ : Context.Context) (r : Slog.Record)
  : M (Slog.St (list Entry)) error :=
  fun st =>
    match writeError h with
    | Some e => (Ret (Some e), st)
    | None =>
        let e := mkEntry (Slog.Level r) (Slog.Message r)
                   (preformatted h ++ qualify (groups h) (Slog.Attrs (Slog.heap st) r)) in
        (Ret None, Slog.set_world (fun w => w ++ [e]) st)
    end.

Definition mem_WithAttrs (h : MemHandler) (attrs : list Slog.Attr) : MemHandler :=
  mkMemHandler (minLevel h) (preformatted h ++ qualify (groups h) attrs)
    (groups h) (writeError h).

Definition mem_WithGroup (h : MemHandler) (name : string) : MemHandler :=
  if decide (name = "") then h
  else mkMemHandler (minLevel h) (preformatted h) (groups h ++ [name]) (writeError h).

#[global] Instance MemHandler_Handler : Slog.Handler (list Entry) MemHandler :=
  Slog.mkHandler (list Entry) MemHandler mem_Enabled mem_Handle mem_WithAttrs mem_WithGroup.

Definition stdout (level : Z) : MemHandler := mkMemHandler level [] [] None.
Definition broken (level : Z) (e : string) : MemHandler := mkMemHandler level [] [] (Some e).

(** A start state: empty heap, doubling growth, nothing written. *)
Definition st0 : Slog.St (list Entry) := Slog.mkSt [] (fun old _ => (2 * old)%nat) [].

End MemSink.

(** ** Package main (main.go) *)

Module Main.
Import Go.

(** *** Domain types and their LogValue *)

Record Customer : Type := mkCustomer
  { UserId : string; Name : string; EmailId : string; GSTNumber : string }.

Record Bank : Type := mkBank
  { BranchId : Z; BranchName : string; BranchSecret : string; Customers : list Customer }.

(** slog.LogValuer *)
Class LogValuer (A : Type) : Type := LogValue : A -> Slog.Value.

(** func (c Customer) LogValue() *)
#[global] Instance Customer_LogValue : LogValuer Customer := fun c =>
  let attributes : list Slog.Attr := [] in
  let attributes := attributes ++ [Slog.mkAttr "user_id" (Slog.AnyValue (AString (UserId c)))] in
  Slog.GroupValue attributes.

(** func (b Bank) LogValue() *)
#[global] Instance Bank_LogValue : LogValuer Bank := fun b =>
  Slog.IntValue (BranchId b).

(** *** The request and what the middlewares run in *)

(** http.Header: canonical key to values. *)
Definition Header : Type := gmap string (list string).

(** h.Get(key) for a key in canonical form: the first value, or "". *)
Definition Header_Get (h : Header) (key : string) : string :=
  match h !! key with
  | Some (v :: _) => v
  | _ => ""
  end.

Record Request : Type := mkRequest
  { Method : string; RequestURI : string; header : Header;
    ctx : option Context.Context }.

(** r.Context(): the request's context, Background when it has none. *)
Definition Request_Context (r : Request) : Context.Context :=
  match ctx r with
  | Some c => c
  | None => Context.Background
  end.

(** r.UserAgent() *)
Definition UserAgent (r : Request) : string := Header_Get (header r) "User-Agent".

(** r.Clone(ctx): a copy of the request that carries ctx (never nil here). *)
Definition Request_Clone (r : Request) (c : Context.Context) : Request :=
  mkRequest (Method r) (RequestURI r) (header r) (Some c).

(** A call of the logging frontend. *)
Record LogCall : Type := mkLogCall
  { call_level : Z; call_ctx : Context.Context; call_msg : string }.

(** What a middleware can touch: the echo.Context (its request and its
    response, of some type [R]), the calls made to the logging frontend, and
    the outside sources it reads: the outcomes of uuid.GenerateUUID call by
    call, the clock, and math/rand's generator (from a seed and the number
    of the draw, the value that Intn reduces to its range). *)
Record Env (R : Type) : Type := mkEnv
  { request : Request;
    response : R;
    logged : list LogCall;
    uuid_outcomes : nat -> string * error;
    uuid_calls : nat;
    unix_nano : Z;
    rand_int63 : Z -> nat -> Z }.
Arguments mkEnv {R}.
Arguments request {R} _.
Arguments response {R} _.
Arguments logged {R} _.
Arguments uuid_outcomes {R} _.
Arguments uuid_calls {R} _.
Arguments unix_nano {R} _.
Arguments rand_int63 {R} _.

Definition SetRequest {R} (r : Request) : M (Env R) unit :=
  modify (fun e => mkEnv r (response e) (logged e) (uuid_outcomes e) (uuid_calls e)
                     (unix_nano e) (rand_int63 e)).

(** uuid.GenerateUUID() *)
Definition GenerateUUID {R} : M (Env R) (string * error) :=
  fun e => (Ret (uuid_outcomes e (uuid_calls e)),
            mkEnv (request e) (response e) (logged e) (uuid_outcomes e) (S (uuid_calls e))
              (unix_nano e) (rand_int63 e)).

(** slog.ErrorContext(ctx, msg): the logging frontend is outside the
    repository; the call is recorded, and it returns. *)
Definition ErrorContext {R} (c : Context.Context) (msg : string) : M (Env R) unit :=
  modify (fun e => mkEnv (request e) (response e)
                     (logged e ++ [mkLogCall Slog.LevelError c msg])
                     (uuid_outcomes e) (uuid_calls e) (unix_nano e) (rand_int63 e)).

(** A *rand.Rand made by rand.New(rand.NewSource(seed)): the seed and the
    number of draws so far. *)
Record Rand : Type := mkRand { seed : Z; draws : nat }.

(** seededRand.Intn(n): panics unless n > 0, else a value in [0, n). *)
Definition Intn {R} (rnd : Rand) (n : Z) : M (Env R) (Z * Rand) :=
  fun e =>
    if decide (n <= 0) then (Panic "invalid argument to Intn", e)
    else (Ret (rand_int63 e (seed rnd) (draws rnd) mod n, mkRand (seed rnd) (S (draws rnd))), e).

Definition charset : string :=
  "abcdefghijklmnopqrstuvwxyzABCDEFGHIJKLMNOPQRSTUVWXYZ0123456789".

(** charset[i] *)
Definition index_string (s : string) (i : Z) : Outcome ascii :=
  if decide (i < 0) then Panic "index out of range"
  else match String.get (Z.to_nat i) s with
       | Some c => Ret c
       | None => Panic "index out of range"
       end.

(** The loop of randomString over the [n] cells of randomBytes. *)
Fixpoint fill_random {R} (n : nat) (rnd : Rand) : M (Env R) (list ascii) :=
  match n with
  | O => ret []
  | S n' =>
      (drawn <- Intn rnd (Z.of_nat (String.length charset)) ;;
       let '(i, rnd') := drawn in
       c <- lift (index_string charset i) ;;
       rest <- fill_random n' rnd' ;;
       ret (c :: rest))%go
  end.

(** randomString(length) *)
Definition randomString {R} (length : Z) : M (Env R) string :=
  (now <- gets unix_nano ;;
   let seededRand := mkRand now 0 in
   if decide (length < 0) then lift (Panic "makeslice: len out of range")
   else
     randomBytes <- fill_random (Z.to_nat length) seededRand ;;
     ret (String.string_of_list_ascii randomBytes))%go.

(** echo.HandlerFunc: it receives the echo.Context, here the state. *)
Definition HandlerFunc (R : Type) : Type := M (Env R) error.

(** CorrelationId *)
Definition CorrelationId {R} (next : HandlerFunc R) : HandlerFunc R :=
  (generated <- GenerateUUID ;;
   let '(requestId, err) := generated in
   requestId <-
     match err with
     | Some e =>
         c <- gets (fun env => Request_Context (request env)) ;;
         ErrorContext c ("Error in generating unique correlation id " +:+ e) ;;;
         randomString 32
     | None => ret requestId
     end ;;
   c <- gets (fun env => Request_Context (request env)) ;;
   ctx <- lift (Context.WithValue c (AString "correlation_id") (AString requestId)) ;;
   req <- gets request ;;
   let request := Request_Clone req ctx in
   SetRequest request ;;;
   next)%go.

(** AddRouteMetaData *)
Definition AddRouteMetaData {R} (next : HandlerFunc R) : HandlerFunc R :=
  (path <- gets (fun env => RequestURI (request env)) ;;
   method <- gets (fun env => Method (request env)) ;;
   userAgent <- gets (fun env => UserAgent (request env)) ;;
   c <- gets (fun env => Request_Context (request env)) ;;
   ctx <- lift (Context.WithValue c (AString "request_path") (AString path)) ;;
   ctx <- lift (Context.WithValue ctx (AString "request_method") (AString method)) ;;
   ctx <- lift (Context.WithValue ctx (AString "request_user_agent") (AString userAgent)) ;;
   req <- gets request ;;
   let request := Request_Clone req ctx in
   SetRequest request ;;;
   next)%go.

End Main.

(** ** legacy_logger.go *)

Module Legacy.
Import Go.

(** getFruitByIndex; fruits[index] panics outside 0 <= index < len. *)
Definition getFruitByIndex (index : Z) (fruits : list string) : Outcome (string * error) :=
  if decide (Z.of_nat (length fruits) < index \/ index < 0) then
    Ret ("", Some "not valid index")
  else
    match (if decide (0 <= index) then fruits !! Z.to_nat index else None) with
    | Some fruit => Ret (fruit, None)
    | None => Panic "runtime error: index out of range"
    end.

End Legacy.

(** ** What the specification talks about *)

Module Spec.
Import Go.

(** The Request Context Store of the specification, section 4.1: the value
    a key is bound to is the one of its newest binding, if it has any. *)
Definition binding (ctx : Context.Context) (key : string) : option any :=
  snd <$> head (filter (fun kv => kv.1 = AString key) ctx).

(** put and get of section 4.1, as the repository spells them. *)
Definition put (ctx : Context.Context) (key value : string) : Outcome Context.Context :=
  Context.WithValue ctx (AString key) (AString value).

Definition get (ctx : Context.Context) (key : string) : Outcome string :=
  Logger.getDefaultValueFromContext ctx key.

(** The string a metadata field reads as: the bound string, or the
    empty-string default. *)
Definition field (ctx : Context.Context) (key : string) : string :=
  match binding ctx key with
  | Some (AString s) => s
  | _ => ""
  end.

Definition meta_keys : list string :=
  ["correlation_id"; "request_method"; "request_path"; "request_user_agent"].

(** The Metadata Group of section 3 for a context. *)
Definition meta_information (ctx : Context.Context) : Slog.Attr :=
  Slog.mkAttr "meta_information"
    (Slog.GroupV (map (fun k => Slog.mkAttr k (Slog.StringV (field ctx k))) meta_keys)).

(** A key is unbound, bound to nil, or bound to a string. *)
Definition stringly (ctx : Context.Context) (key : string) : Prop :=
  match binding ctx key with
  | None | Some ANil | Some (AString _) => True
  | Some _ => False
  end.

(** Each of the four metadata keys is. *)
Definition metadata_stringly (ctx : Context.Context) : Prop :=
  Forall (stringly ctx) meta_keys.

(** [f] reads nothing of its argument but [sel]. *)
Definition depends_only_on {A B C} (f : A -> B) (sel : A -> C) : Prop :=
  forall x y, sel x = sel y -> f x = f y.

(** The keys of a group value. *)
Definition group_keys (v : Slog.Value) : option (list string) :=
  match v with
  | Slog.GroupV g => Some (map Slog.Key g)
  | _ => None
  end.

(** What AddAttrs and GroupValue keep of a list of attributes. *)
Abbreviation nonempty_groups :=
  (filter (fun a : Slog.Attr => Slog.isEmptyGroup (Slog.Val a) = false)).

(** *** Memory *)

(** A slice header points into the heap and stays within its array. *)
Definition valid_slice (h : Slog.Heap) (s : Slog.slice) : Prop :=
  match Slog.ptr s with
  | Some l =>
      match h !! l with
      | Some arr => (Slog.len s <= Slog.cap s /\ Slog.cap s <= length arr)%nat
      | None => False
      end
  | None => Slog.len s = 0%nat /\ Slog.cap s = 0%nat
  end.

(** The representation invariant of slog.Record: the inline array has its
    five cells, and the overflow slice is only allocated once they are all
    in use. *)
Definition wf_record (h : Slog.Heap) (r : Slog.Record) : Prop :=
  length (Slog.front r) = Slog.nAttrsInline /\
  (Slog.nFront r <= Slog.nAttrsInline)%nat /\
  valid_slice h (Slog.back r) /\
  ((Slog.nFront r < Slog.nAttrsInline)%nat -> Slog.cap (Slog.back r) = 0%nat).

(** [h'] comes from [h] by code that was handed the slice [s] and has
    no other way into the heap: arrays are never freed or resized, an array
    other than that of [s] is as it was, and the array of [s] is as it was
    below the length of [s]. *)
Definition frame (h h' : Slog.Heap) (s : Slog.slice) : Prop :=
  (length h <= length h')%nat /\
  forall l arr, h !! l = Some arr ->
    exists arr', h' !! l = Some arr' /\ length arr' = length arr /\
      forall i, (Slog.ptr s = Some l -> (i < Slog.len s)%nat) -> arr' !! i = arr !! i.

(** [s1] was made from [s] by appending: it is [s] grown in place, or it
    lives in an array allocated after [h]. *)
Definition descends (h : Slog.Heap) (s s1 : Slog.slice) : Prop :=
  (Slog.ptr s1 = Slog.ptr s /\ (Slog.len s <= Slog.len s1)%nat) \/
  (exists l, Slog.ptr s1 = Some l /\ (length h <= l)%nat).

(** Slice [s'] in state [st'] was made from [s] in [st] by slog's own code:
    it is valid, the heap was only written past the end of [s], and nothing
    but the heap changed. *)
Definition grown {W} (st : Slog.St W) (s : Slog.slice) (st' : Slog.St W) (s' : Slog.slice) : Prop :=
  valid_slice (Slog.heap st') s' /\
  frame (Slog.heap st) (Slog.heap st') s /\
  descends (Slog.heap st) s s' /\
  Slog.world st' = Slog.world st /\
  Slog.growslice st' = Slog.growslice st.

(** A handler that reaches the heap only through the record it is given,
    as any handler written against slog's exported API does. *)
Definition frame_respecting (W H : Type) `{!Slog.Handler W H} : Prop :=
  forall (h : H) ctx r st,
    wf_record (Slog.heap st) r ->
    frame (Slog.heap st) (Slog.heap (Slog.Handle h ctx r st).2) (Slog.back r).

(** What AddAttrs puts in front of the new attributes when it finds that a
    copy of the record was appended to. *)
Definition bug_notice (h : Slog.Heap) (r : Slog.Record) : list Slog.Attr :=
  if Slog.modified_copy h (Slog.back r) then [Slog.bugAttr] else [].

(** Handlers derived from one by a series of WithAttrs and WithGroup. *)
Inductive derivation : Type :=
| ByAttrs (attrs : list Slog.Attr)
| ByGroup (name : string).

Definition derive {W H} `{!Slog.Handler W H} (h : H) (d : derivation) : H :=
  match d with
  | ByAttrs attrs => Slog.WithAttrs h attrs
  | ByGroup name => Slog.WithGroup h name
  end.

Definition derive_all {W H} `{!Slog.Handler W H} (h : H) (ds : list derivation) : H :=
  foldl derive h ds.

(** *** Middlewares *)

(** The state a middleware hands to the next stage: the one it received
    with another request, and what it drew from the outside sources. *)
Definition with_request {R} (e : Main.Env R) (req : Main.Request)
    (calls : list Main.LogCall) (n : nat) : Main.Env R :=
  Main.mkEnv req (Main.response e) (Main.logged e ++ calls)
    (Main.uuid_outcomes e) (Main.uuid_calls e + n) (Main.unix_nano e) (Main.rand_int63 e).


Definition in_charset (c : ascii) : Prop :=
  In c (String.list_ascii_of_string Main.charset).


(** The characters the draws number [start], [start + 1], ... of a
    generator select from the charset. *)
Fixpoint drawn_chars (rand : nat -> Z) (start n : nat) : list ascii :=
  match n with
  | O => []
  | S n' =>
      let i := rand start mod Z.of_nat (String.length Main.charset) in
      default Ascii.zero (String.get (Z.to_nat i) Main.charset)
        :: drawn_chars rand (S start) n'
  end.

(** The id randomString(32) falls back to in a given environment. *)
Definition fallback_id {R} (e : Main.Env R) : string :=
  String.string_of_list_ascii
    (drawn_chars (Main.rand_int63 e (Main.unix_nano e)) 0 32).

(** The context CorrelationId hands on. *)
Definition correlation_context (req : Main.Request) (requestId : string) : Context.Context :=
  (AString "correlation_id", AString requestId) :: Main.Request_Context req.

(** The context AddRouteMetaData hands on: path, then method, then user
    agent, on top of the request's context. *)
Definition route_context (req : Main.Request) : Context.Context :=
  (AString "request_user_agent", AString (Main.UserAgent req)) ::
  (AString "request_method", AString (Main.Method req)) ::
  (AString "request_path", AString (Main.RequestURI req)) ::
  Main.Request_Context req.

(** The call CorrelationId makes to the logging frontend when generation
    fails with [msg]. *)
Definition generation_failure (req : Main.Request) (msg : string) : Main.LogCall :=
  Main.mkLogCall Slog.LevelError (Main.Request_Context req)
    ("Error in generating unique correlation id " +:+ msg).

End Spec.

(** ** Concrete inputs *)

Module Fixtures.
Import Go.

(** The request of section 8: GET /get_customer from test-agent. *)
Definition get_customer : Main.Request :=
  Main.mkRequest "GET" "/get_customer" {["User-Agent" := ["test-agent"]]} None.


(** An environment in which it succeeds. *)
Definition working_env : Main.Env unit :=
  Main.mkEnv get_customer tt [] (fun _ => ("cdd18a07-9e30-a6a8-dcf4-08b91c8f41ff", None)) 0
    1703517559675320000 (fun seed n => seed + 7 * Z.of_nat n).

(** A handler that returns without logging. *)
Definition quiet : Main.HandlerFunc unit := ret None.



(** The handler main() installs, over the in-memory sink. *)
Definition ctxHandler : Logger.ContextHandler MemSink.MemHandler :=
  Logger.mkContextHandler (MemSink.stdout Slog.LevelInfo).

(** The same over a sink whose writes fail. *)
Definition ctxHandler_broken : Logger.ContextHandler MemSink.MemHandler :=
  Logger.mkContextHandler (MemSink.broken Slog.LevelInfo "write: broken pipe").

(** A record as the frontend makes it, before any attribute. *)
Definition record0 : Slog.Record :=
  Slog.NewRecord 1703517559 Slog.LevelInfo "Logging customer data" 0.

(** A record with seven attributes: five inline, two in an array of four
    cells, so that an append finds room in place. *)
Definition letter (k : string) : Slog.Attr := Slog.String k "x".

Definition record7 : Slog.Record :=
  Slog.mkRecord 1703517559 "Logging customer data" Slog.LevelInfo 0
    [letter "a"; letter "b"; letter "c"; letter "d"; letter "e"] 5
    (Slog.mkSlice (Some 0%nat) 2 4).

Definition st7 : Slog.St (list MemSink.Entry) :=
  Slog.mkSt [[letter "f"; letter "g"; Slog.zeroAttr; Slog.zeroAttr]]
    (fun old _ => (2 * old)%nat) [].

(** The context of a request once both middlewares have run. *)
Definition populated : Context.Context :=
  Spec.route_context
    (Main.Request_Clone get_customer
       (Spec.correlation_context get_customer "cdd18a07-9e30-a6a8-dcf4-08b91c8f41ff")).

(** A context in which someone else bound request_path to an int. *)
Definition foreign : Context.Context := [(AString "request_path", AInt 7)].

End Fixtures.

(** ** The middlewares in sequence

    main() registers CorrelationId and then AddRouteMetaData; what follows
    names what the two hand on, in that order and in the other. *)

Module Chain.
Import Go.

(** The id CorrelationId binds: the generated one, or the fallback. *)
Definition request_id {R} (e : Main.Env R) : string :=
  match Main.uuid_outcomes e (Main.uuid_calls e) with
  | (id, None) => id
  | (_, Some _) => Spec.fallback_id e
  end.

(** The calls CorrelationId makes to the logging frontend. *)
Definition generation_calls {R} (e : Main.Env R) : list Main.LogCall :=
  match Main.uuid_outcomes e (Main.uuid_calls e) with
  | (_, None) => []
  | (_, Some msg) => [Spec.generation_failure (Main.request e) msg]
  end.

(** The request CorrelationId hands on. *)
Definition correlated {R} (e : Main.Env R) : Main.Request :=
  Main.Request_Clone (Main.request e)
    (Spec.correlation_context (Main.request e) (request_id e)).

(** The request AddRouteMetaData hands on. *)
Definition routed (req : Main.Request) : Main.Request :=
  Main.Request_Clone req (Spec.route_context req).



(** The three keys AddRouteMetaData binds. *)
Definition route_keys : list string :=
  ["request_path"; "request_method"; "request_user_agent"].



End Chain.

(** Hypotheses on concrete inputs are settled by running the definitions. *)
Ltac wf_by_computation :=
  unfold Spec.wf_record, Spec.valid_slice, Slog.nAttrsInline; simpl;
  repeat match goal with |- _ /\ _ => split end; lia.

Ltac stringly_by_computation :=
  unfold Spec.metadata_stringly, Spec.meta_keys; repeat (constructor; try exact I).

(** * Properties *)

Import Go.

(** ** Running monadic code *)

Section Running.

Lemma bind_run {S A B} (m : M S A) (k : A -> M S B) s a s' :
  m s = (Ret a, s') -> bind m k s = k a s'.
Proof. intros E. unfold bind. rewrite E. reflexivity. Qed.

Lemma bind_panic {S A B} (m : M S A) (k : A -> M S B) s msg s' :
  m s = (Panic msg, s') -> bind m k s = (Panic msg, s').
Proof. intros E. unfold bind. rewrite E. reflexivity. Qed.

End Running.

(** ** The Request Context Store *)

Section ContextStore.

Lemma binding_cons k v ctx key :
  Spec.binding ((k, v) :: ctx) key =
  if decide (k = AString key) then Some v else Spec.binding ctx key.
Proof.
  unfold Spec.binding. rewrite filter_cons. simpl.
  destruct (decide (k = AString key)); reflexivity.
Qed.

(** ctx.Value walks the chain to the newest binding of the key. *)
Lemma Value_binding ctx key :
  Context.Value ctx (AString key) = default ANil (Spec.binding ctx key).
Proof.
  induction ctx as [|[k v] ctx IH]; [reflexivity|].
  rewrite binding_cons. simpl.
  destruct (decide (k = AString key)); [reflexivity | exact IH].
Qed.

Lemma get_unbound ctx key :
  Spec.binding ctx key = None -> Spec.get ctx key = Ret "".
Proof.
  intros Hb. unfold Spec.get, Logger.getDefaultValueFromContext.
  rewrite Value_binding, Hb. reflexivity.
Qed.

Lemma get_bound ctx key v :
  Spec.binding ctx key = Some v ->
  Spec.get ctx key =
  if decide (v = ANil) then Ret "" else Go.assert_string v.
Proof.
  intros Hb. unfold Spec.get, Logger.getDefaultValueFromContext.
  rewrite Value_binding, Hb. simpl.
  destruct (decide (v = ANil)) as [->|Hv].
  - reflexivity.
  - destruct (decide (v <> ANil)); [|contradiction].
    destruct (assert_string v); reflexivity.
Qed.

Lemma get_stringly ctx key :
  Spec.stringly ctx key -> Spec.get ctx key = Ret (Spec.field ctx key).
Proof.
  unfold Spec.stringly, Spec.field. intros Hs.
  destruct (Spec.binding ctx key) as [v|] eqn:Hb.
  - rewrite (get_bound _ _ _ Hb). destruct v; try contradiction; reflexivity.
  - apply get_unbound, Hb.
Qed.

End ContextStore.

Section ContextAccessor.

(** C2 (as amended): for every context and key, getDefaultValueFromContext
    returns the bound string when the newest binding of the key is a string,
    and the empty-string default when the key is unbound or bound to nil;
    when a value of any other type is bound under the key it does not
    return: the type assertion panics. *)
Theorem getDefaultValueFromContext_by_binding (ctx : Context.Context) (key : string) :
  (Spec.binding ctx key = None ->
     Logger.getDefaultValueFromContext ctx key = Ret "") /\
  (Spec.binding ctx key = Some ANil ->
     Logger.getDefaultValueFromContext ctx key = Ret "") /\
  (forall s, Spec.binding ctx key = Some (AString s) ->
     Logger.getDefaultValueFromContext ctx key = Ret s) /\
  (forall v, Spec.binding ctx key = Some v -> v <> ANil -> (forall s, v <> AString s) ->
     exists msg, Logger.getDefaultValueFromContext ctx key = Panic msg).
Proof.
  repeat split.
  - apply get_unbound.
  - intros Hb. apply (get_bound _ _ _ Hb).
  - intros s Hb. apply (get_bound _ _ _ Hb).
  - intros v Hb Hnil Hstr. change (exists msg, Spec.get ctx key = Panic msg).
    rewrite (get_bound _ _ _ Hb).
    destruct (decide (v = ANil)); [contradiction|].
    destruct v; simpl; eauto. exfalso. eapply Hstr. reflexivity.
Qed.

Lemma getDefaultValueFromContext_panic_on (ctx : Context.Context) (key : string) (v : any) :
  Spec.binding ctx key = Some v -> v <> ANil -> (forall s, v <> AString s) ->
  exists msg, Logger.getDefaultValueFromContext ctx key = Panic msg.
Proof.
  intros Hb Hnil Hstr. change (exists msg, Spec.get ctx key = Panic msg).
  rewrite (get_bound _ _ _ Hb).
  destruct (decide (v = ANil)); [contradiction|].
  destruct v; simpl; eauto. exfalso. eapply Hstr. reflexivity.
Qed.

(** C2 (as stated) fails: with an int bound under the key the accessor
    panics instead of returning the empty-string default. *)
Lemma getDefaultValueFromContext_type_mismatch :
  Spec.binding [(AString "correlation_id", AInt 7)] "correlation_id" = Some (AInt 7) /\
  Logger.getDefaultValueFromContext [(AString "correlation_id", AInt 7)] "correlation_id"
  = Panic "interface conversion: interface {} is int, not string" /\
  Logger.getDefaultValueFromContext [(AString "correlation_id", AInt 7)] "correlation_id"
  <> Ret "".
Proof. split; [reflexivity | split; [reflexivity | intros E; vm_compute in E; discriminate E]]. Qed.

(** C8: put(c, k, v) is a new context, one node in front of c, in which get
    at k returns v and get at every other key returns what it returned on c;
    c itself is the tail of the new context, as it was. *)
Theorem put_then_get (c : Context.Context) (k v : string) :
  exists c',
    Spec.put c k v = Ret c' /\
    c' = (AString k, AString v) :: c /\
    Spec.get c' k = Ret v /\
    (forall k', k' <> k ->
       Spec.get c' k' = Spec.get c k' /\
       Context.Value c' (AString k') = Context.Value c (AString k')) /\
    (forall (key val : any), key <> ANil ->
       Context.WithValue c key val = Ret ((key, val) :: c) /\
       Context.Value ((key, val) :: c) key = val /\
       forall key', key' <> key ->
         Context.Value ((key, val) :: c) key' = Context.Value c key').
Proof.
  exists ((AString k, AString v) :: c).
  split; [reflexivity|]. split; [reflexivity|]. split; [|split].
  - apply (get_bound _ _ (AString v)). rewrite binding_cons.
    destruct (decide (AString k = AString k)); [reflexivity | contradiction].
  - intros k' Hk'. split.
    + unfold Spec.get, Logger.getDefaultValueFromContext. simpl.
      destruct (decide (AString k = AString k')) as [E|_]; [|reflexivity].
      injection E as ->. contradiction.
    + simpl. destruct (decide (AString k = AString k')) as [E|_]; [|reflexivity].
      injection E as ->. contradiction.
  - intros key val Hkey. unfold Context.WithValue. simpl.
    destruct (decide (key = ANil)); [contradiction|].
    split; [reflexivity|]. split.
    + destruct (decide (key = key)); [reflexivity | contradiction].
    + intros key' Hne. destruct (decide (key = key')); [congruence | reflexivity].
Qed.

End ContextAccessor.

(** ** legacy_logger.go *)

Section LegacyLogger.

(** C9: getFruitByIndex returns the "not valid index" error exactly when
    index < 0 or index > len(fruits); at index = len(fruits) the guard does
    not fire and fruits[index] is out of range (a run-time panic); only for
    0 <= index < len(fruits) does it return the fruit. *)
Theorem getFruitByIndex_guard (index : Z) (fruits : list string) :
  (Legacy.getFruitByIndex index fruits = Ret ("", Some "not valid index")
     <-> index < 0 \/ index > Z.of_nat (length fruits)) /\
  (index = Z.of_nat (length fruits) ->
     Legacy.getFruitByIndex index fruits = Panic "runtime error: index out of range") /\
  (0 <= index < Z.of_nat (length fruits) ->
     exists fruit, fruits !! Z.to_nat index = Some fruit /\
       Legacy.getFruitByIndex index fruits = Ret (fruit, None)).
Proof.
  unfold Legacy.getFruitByIndex. repeat split.
  - destruct (decide _) as [Hg|Hg]; [lia|].
    destruct (decide (0 <= index)); [|lia].
    destruct (fruits !! Z.to_nat index); discriminate.
  - intros Hi. destruct (decide _) as [Hg|Hg]; [reflexivity | lia].
  - intros ->. destruct (decide _) as [Hg|Hg]; [lia|].
    destruct (decide _); [|lia].
    rewrite Nat2Z.id, (lookup_ge_None_2 fruits (length fruits)) by lia. reflexivity.
  - intros Hi. destruct (decide _) as [Hg|Hg]; [lia|].
    destruct (decide _); [|lia].
    destruct (lookup_lt_is_Some_2 fruits (Z.to_nat index)) as [fruit Hf]; [lia|].
    exists fruit. rewrite Hf. split; reflexivity.
Qed.

(** The two calls of main(): index 1 is served, index 5 is refused; index 4,
    the length of the list, passes the guard and panics. *)
Example getFruitByIndex_main :
  let list := ["apple"; "orange"; "banana"; "kivi"] in
  Legacy.getFruitByIndex 1 list = Ret ("orange", None) /\
  Legacy.getFruitByIndex 5 list = Ret ("", Some "not valid index") /\
  Legacy.getFruitByIndex 4 list = Panic "runtime error: index out of range".
Proof. repeat split. Qed.

End LegacyLogger.

(** ** The Loggable Value Protocol *)

Section LogValuers.

(** C3: what a LogValuer of the repository logs is a function of the
    selected field alone.  Customer.LogValue reads only UserId and is a group
    with the single key user_id; Bank.LogValue reads only BranchId and is one
    scalar of kind Int64, never a group. *)
Theorem LogValue_selected_fields :
  Spec.depends_only_on (Main.LogValue (A:=Main.Customer)) Main.UserId /\
  (forall c : Main.Customer,
     Main.LogValue c = Slog.GroupV [Slog.mkAttr "user_id" (Slog.StringV (Main.UserId c))] /\
     Spec.group_keys (Main.LogValue c) = Some ["user_id"]) /\
  Spec.depends_only_on (Main.LogValue (A:=Main.Bank)) Main.BranchId /\
  (forall b : Main.Bank,
     Main.LogValue b = Slog.Int64V (Main.BranchId b) /\
     Slog.kind (Main.LogValue b) = Slog.KindInt64 /\
     Spec.group_keys (Main.LogValue b) = None).
Proof.
  unfold Spec.depends_only_on, Main.LogValue, Main.Customer_LogValue, Main.Bank_LogValue.
  repeat split.
  - intros x y Hsel. simpl. rewrite Hsel. reflexivity.
  - intros x y Hsel. simpl. rewrite Hsel. reflexivity.
Qed.

(** Two customers with the same id and nothing else in common, two banks
    with the same branch and different secrets. *)
Example LogValue_hides_the_rest :
  Main.LogValue (Main.mkCustomer "u-17" "Ann" "ann@example.org" "GST-1")
  = Main.LogValue (Main.mkCustomer "u-17" "Bob" "bob@example.org" "GST-2") /\
  Main.LogValue (Main.mkBank 51 "north" "s3cret" [])
  = Main.LogValue (Main.mkBank 51 "south" "hunter2" [Main.mkCustomer "u" "n" "e" "g"]).
Proof.
  destruct LogValue_selected_fields as (Hc & _ & Hb & _).
  split; [apply Hc | apply Hb]; reflexivity.
Defined.
End LogValuers.

(** ** The middlewares *)

Section Middlewares.
Context {R : Type}.

Lemma string_get_In (s : string) (i : nat) :
  (i < String.length s)%nat ->
  exists c, String.get i s = Some c /\ In c (String.list_ascii_of_string s).
Proof.
  revert i. induction s as [|a s IH]; simpl; intros i Hi; [lia|].
  destruct i as [|i].
  - exists a. split; [reflexivity | left; reflexivity].
  - destruct (IH i) as (c & Hc & Hin); [lia|].
    exists c. split; [exact Hc | right; exact Hin].
Qed.

Lemma length_string_of_list_ascii (l : list ascii) :
  String.length (String.string_of_list_ascii l) = length l.
Proof. induction l; simpl; congruence. Qed.


(** A draw never panics and always lands on a character of the charset. *)
Lemma draw_in_charset (rnd : Main.Rand) (e : Main.Env R) :
  let i := Main.rand_int63 e (Main.seed rnd) (Main.draws rnd)
             mod Z.of_nat (String.length Main.charset) in
  Main.Intn rnd (Z.of_nat (String.length Main.charset)) e
  = (Ret (i, Main.mkRand (Main.seed rnd) (S (Main.draws rnd))), e) /\
  exists c, String.get (Z.to_nat i) Main.charset = Some c /\
    Main.index_string Main.charset i = Ret c /\ Spec.in_charset c.
Proof.
  intros i. subst i. set (n := Z.of_nat (String.length Main.charset)).
  assert (Hn : n = 62) by reflexivity.
  split.
  - unfold Main.Intn. fold n. destruct (decide (n <= 0)); [lia | reflexivity].
  - pose proof (Z.mod_pos_bound (Main.rand_int63 e (Main.seed rnd) (Main.draws rnd)) n) as Hb.
    set (i := _ mod n) in *.
    destruct (string_get_In Main.charset (Z.to_nat i)) as (c & Hc & Hin).
    { change (String.length Main.charset) with 62%nat. lia. }
    exists c. split; [exact Hc | split; [|exact Hin]].
    unfold Main.index_string. destruct (decide (i < 0)); [lia|].
    rewrite Hc. reflexivity.
Qed.

(** The loop of randomString fills every cell from the charset and leaves
    the state alone. *)
Lemma fill_random_run (n : nat) (rnd : Main.Rand) (e : Main.Env R) :
  let l := Spec.drawn_chars (Main.rand_int63 e (Main.seed rnd)) (Main.draws rnd) n in
  Main.fill_random n rnd e = (Ret l, e) /\
  length l = n /\ Forall Spec.in_charset l.
Proof.
  revert rnd. induction n as [|n IH]; intros rnd.
  - repeat split. constructor.
  - destruct (draw_in_charset rnd e) as (Hi & c & Hget & Hc & Hin).
    destruct (IH (Main.mkRand (Main.seed rnd) (S (Main.draws rnd)))) as (Hl & Hlen & Hall).
    cbn [Main.seed Main.draws] in Hl, Hlen, Hall.
    cbn [Spec.drawn_chars]. rewrite Hget. cbn [default from_option].
    split; [|split; [simpl; congruence | constructor; assumption]].
    cbn [Main.fill_random].
    rewrite (bind_run _ _ _ _ _ Hi). cbn beta iota.
    unfold lift at 1. unfold bind at 1. rewrite Hc.
    rewrite (bind_run _ _ _ _ _ Hl). reflexivity.
Qed.

Lemma randomString_32 (e : Main.Env R) :
  Main.randomString 32 e = (Ret (Spec.fallback_id e), e) /\
  String.length (Spec.fallback_id e) = 32%nat /\
  Forall Spec.in_charset (String.list_ascii_of_string (Spec.fallback_id e)).
Proof.
  destruct (fill_random_run 32 (Main.mkRand (Main.unix_nano e) 0) e) as (Hl & Hn & Hall).
  cbn [Main.seed Main.draws] in Hl, Hn, Hall.
  unfold Spec.fallback_id. split; [|split].
  - unfold Main.randomString, gets. unfold bind at 1.
    destruct (decide (32 < 0)); [lia|].
    change (Z.to_nat 32) with 32%nat.
    rewrite (bind_run _ _ _ _ _ Hl). reflexivity.
  - rewrite length_string_of_list_ascii. exact Hn.
  - rewrite String.list_ascii_of_string_of_list_ascii. exact Hall.
Qed.

Lemma AddRouteMetaData_run (next : Main.HandlerFunc R) (e : Main.Env R) :
  Main.AddRouteMetaData next e =
  next (Spec.with_request e
          (Main.Request_Clone (Main.request e) (Spec.route_context (Main.request e))) [] 0).
Proof.
  unfold Spec.with_request. rewrite app_nil_r, Nat.add_0_r. reflexivity.
Qed.

Lemma CorrelationId_run_ok (next : Main.HandlerFunc R) (e : Main.Env R) (id : string) :
  Main.uuid_outcomes e (Main.uuid_calls e) = (id, None) ->
  Main.CorrelationId next e =
  next (Spec.with_request e
          (Main.Request_Clone (Main.request e) (Spec.correlation_context (Main.request e) id))
          [] 1).
Proof.
  intros Hid. unfold Spec.with_request. rewrite app_nil_r, Nat.add_1_r.
  unfold Main.CorrelationId, Main.GenerateUUID. unfold bind at 1. rewrite Hid.
  reflexivity.
Qed.

Lemma CorrelationId_run_failed (next : Main.HandlerFunc R) (e : Main.Env R) (id msg : string) :
  Main.uuid_outcomes e (Main.uuid_calls e) = (id, Some msg) ->
  Main.CorrelationId next e =
  next (Spec.with_request e
          (Main.Request_Clone (Main.request e)
             (Spec.correlation_context (Main.request e) (Spec.fallback_id e)))
          [Spec.generation_failure (Main.request e) msg] 1).
Proof.
  intros Hid.
  set (e1 := Main.mkEnv (Main.request e) (Main.response e)
               (Main.logged e ++ [Spec.generation_failure (Main.request e) msg])
               (Main.uuid_outcomes e) (S (Main.uuid_calls e))
               (Main.unix_nano e) (Main.rand_int63 e)).
  destruct (randomString_32 e1) as (Hrun & _).
  change (Spec.fallback_id e1) with (Spec.fallback_id e) in Hrun.
  unfold Spec.with_request. rewrite Nat.add_1_r.
  unfold Main.CorrelationId, Main.GenerateUUID. unfold bind at 1. rewrite Hid.
  cbn beta iota. unfold bind at 1. unfold bind at 1. unfold bind at 1.
  unfold gets at 1. unfold bind at 1. unfold Main.ErrorContext, modify.
  cbn [Main.request Main.response Main.logged Main.uuid_outcomes Main.uuid_calls
         Main.unix_nano Main.rand_int63].
  fold (Spec.generation_failure (Main.request e) msg). fold e1.
  rewrite Hrun. reflexivity.
Qed.



End Middlewares.



(** ** Slices and the heap *)

Section Memory.
Context {W : Type}.
Implicit Types (h : Slog.Heap) (s : Slog.slice) (st : Slog.St W) (a : Slog.Attr).

Lemma frame_refl h s : Spec.frame h h s.
Proof. split; [lia|]. intros l arr Hl. exists arr. auto. Qed.

Lemma frame_trans h h1 h2 s s1 :
  Spec.frame h h1 s -> Spec.frame h1 h2 s1 -> Spec.descends h s s1 ->
  Spec.frame h h2 s.
Proof.
  intros [Hlen1 H1] [Hlen2 H2] Hd. split; [lia|].
  intros l arr Hl.
  destruct (H1 l arr Hl) as (arr1 & Hl1 & Hsz1 & Hag1).
  destruct (H2 l arr1 Hl1) as (arr2 & Hl2 & Hsz2 & Hag2).
  exists arr2. split; [exact Hl2 | split; [congruence|]].
  intros i Hi. rewrite Hag2, Hag1; [reflexivity | exact Hi |].
  intros Hp. destruct Hd as [[Hptr Hle] | (l' & Hptr & Hfresh)].
  - rewrite Hptr in Hp. specialize (Hi Hp). lia.
  - apply lookup_lt_Some in Hl. rewrite Hptr in Hp. injection Hp as ->. lia.
Qed.

Lemma descends_refl h s : Spec.descends h s s.
Proof. left. split; [reflexivity | lia]. Qed.

Lemma descends_trans h h1 s s1 s2 :
  (length h <= length h1)%nat ->
  Spec.descends h s s1 -> Spec.descends h1 s1 s2 -> Spec.descends h s s2.
Proof.
  intros Hlen [[Hp1 Hl1] | (l & Hp1 & Hf1)] [[Hp2 Hl2] | (l' & Hp2 & Hf2)].
  - left. split; [congruence | lia].
  - right. exists l'. split; [exact Hp2 | lia].
  - right. exists l. split; [congruence | exact Hf1].
  - right. exists l'. split; [exact Hp2 | lia].
Qed.

Lemma valid_slice_frame h h' s s0 :
  Spec.valid_slice h s -> Spec.frame h h' s0 -> Spec.valid_slice h' s.
Proof.
  unfold Spec.valid_slice. intros Hv [_ Hf].
  destruct (Slog.ptr s) as [l|]; [|exact Hv].
  destruct (h !! l) as [arr|] eqn:Hl; [|contradiction].
  destruct (Hf l arr Hl) as (arr' & -> & Hsz & _). lia.
Qed.

(** What a slice holds is out of reach of code that was handed that slice
    (or a shorter one on the same array, or one on another array). *)
Lemma elems_frame h h' s s0 :
  Spec.valid_slice h s -> Spec.frame h h' s0 ->
  (Slog.ptr s0 = Slog.ptr s -> (Slog.len s <= Slog.len s0)%nat) ->
  Slog.elems h' s = Slog.elems h s.
Proof.
  unfold Spec.valid_slice, Slog.elems, Slog.array_of. intros Hv [_ Hf] Hcover.
  destruct (Slog.ptr s) as [l|] eqn:Hp; [|reflexivity].
  destruct (h !! l) as [arr|] eqn:Hl; [|contradiction].
  destruct (Hf l arr Hl) as (arr' & -> & Hsz & Hag). simpl.
  apply list_eq. intros i.
  destruct (decide (i < Slog.len s)%nat) as [Hi|Hi].
  - rewrite !lookup_take_lt by exact Hi. apply Hag. intros Hp0.
    assert (Slog.len s <= Slog.len s0)%nat by (apply Hcover; congruence). lia.
  - rewrite !lookup_take_ge by lia. reflexivity.
Qed.

Lemma grown_refl st s : Spec.valid_slice (Slog.heap st) s -> Spec.grown st s st s.
Proof.
  intros Hv. split; [exact Hv|]. split; [apply frame_refl|].
  split; [apply descends_refl|]. split; reflexivity.
Qed.

Lemma grown_trans st s st1 s1 st2 s2 :
  Spec.grown st s st1 s1 -> Spec.grown st1 s1 st2 s2 -> Spec.grown st s st2 s2.
Proof.
  intros (Hv1 & Hf1 & Hd1 & Hw1 & Hg1) (Hv2 & Hf2 & Hd2 & Hw2 & Hg2).
  split; [exact Hv2|]. split; [eapply frame_trans; eassumption|].
  split; [eapply descends_trans; [apply Hf1 | eassumption..]|].
  split; congruence.
Qed.

Lemma newcap_ge st old needed : (needed <= Slog.newcap st old needed)%nat.
Proof. unfold Slog.newcap. lia. Qed.

Lemma length_elems h s :
  Spec.valid_slice h s -> length (Slog.elems h s) = Slog.len s.
Proof.
  unfold Spec.valid_slice, Slog.elems, Slog.array_of. intros Hv.
  rewrite length_take.
  destruct (Slog.ptr s) as [l|].
  - destruct (h !! l) as [arr|]; [|contradiction]. simpl. lia.
  - simpl. lia.
Qed.

(** A slice in a fresh array at the end of the heap. *)
Lemma grown_alloc st s (arr : list Slog.Attr) n c :
  (n <= c)%nat -> (c <= length arr)%nat ->
  Spec.grown st s
    (Slog.set_heap (fun h => h ++ [arr]) st)
    (Slog.mkSlice (Some (length (Slog.heap st))) n c).
Proof.
  intros Hn Hc. unfold Spec.grown, Slog.set_heap. simpl.
  split; [|split; [|split; [|split; reflexivity]]].
  - unfold Spec.valid_slice. simpl. rewrite list_lookup_middle by reflexivity. lia.
  - split; [rewrite length_app; lia|]. intros l arr0 Hl. exists arr0.
    split; [|auto]. rewrite lookup_app_l; [exact Hl | eapply lookup_lt_Some, Hl].
  - right. eexists. split; [reflexivity | lia].
Qed.

Lemma elems_alloc h (arr : list Slog.Attr) n c :
  Slog.elems (h ++ [arr]) (Slog.mkSlice (Some (length h)) n c) = take n arr.
Proof.
  unfold Slog.elems, Slog.array_of. simpl.
  rewrite list_lookup_middle by reflexivity. reflexivity.
Qed.

(** append(s, a) *)
Lemma append_run s a st :
  Spec.valid_slice (Slog.heap st) s ->
  exists s' st',
    Slog.append s a st = (Ret s', st') /\
    Spec.grown st s st' s' /\
    Slog.elems (Slog.heap st') s' = Slog.elems (Slog.heap st) s ++ [a] /\
    Slog.len s' = S (Slog.len s) /\
    (0 < Slog.cap s')%nat.
Proof.
  intros Hv. pose proof (length_elems _ _ Hv) as Hlen.
  unfold Slog.append. destruct (Slog.ptr s) as [l|] eqn:Hp.
  - destruct (decide (Slog.len s < Slog.cap s)%nat) as [Hroom|Hfull].
    + eexists _, _. split; [reflexivity|].
      unfold Spec.valid_slice in Hv. rewrite Hp in Hv.
      destruct (Slog.heap st !! l) as [arr|] eqn:Hl; [|contradiction].
      split; [|split; [|split; [reflexivity | simpl; lia]]].
      * unfold Spec.grown, Slog.set_heap. simpl.
        split; [|split; [|split; [|split; reflexivity]]].
        -- unfold Spec.valid_slice. simpl. rewrite list_lookup_alter_eq, Hl. simpl.
           rewrite length_insert. lia.
        -- split; [rewrite length_alter; lia|]. intros l0 arr0 Hl0.
           destruct (decide (l = l0)) as [->|Hne].
           ++ rewrite list_lookup_alter_eq, Hl0. simpl. eexists. split; [reflexivity|].
              split; [apply length_insert|]. intros i Hi.
              apply list_lookup_insert_ne. specialize (Hi Hp). lia.
           ++ rewrite list_lookup_alter_ne by exact Hne. exists arr0. auto.
        -- left. simpl. split; [congruence | lia].
      * unfold Slog.elems, Slog.array_of, Slog.set_heap. simpl. rewrite Hp.
        rewrite list_lookup_alter_eq, Hl. simpl.
        rewrite (take_S_r _ _ a) by (apply list_lookup_insert_eq; lia).
        rewrite take_insert_ge by lia. reflexivity.
    + pose proof (newcap_ge st (Slog.cap s) (S (Slog.len s))) as Hc.
      eexists _, _. split; [reflexivity|].
      split; [|split; [|split; [reflexivity | simpl; lia]]].
      * apply grown_alloc; [exact Hc|].
        rewrite length_app, Hlen. simpl. rewrite length_replicate. lia.
      * unfold Slog.set_heap. simpl. rewrite elems_alloc.
        rewrite cons_middle, app_assoc.
        apply take_app_length'. rewrite length_app, Hlen. simpl. lia.
  - pose proof (newcap_ge st 0 1) as Hc.
    assert (Hnil : Slog.elems (Slog.heap st) s = []).
    { unfold Slog.elems, Slog.array_of. rewrite Hp. apply take_nil. }
    unfold Spec.valid_slice in Hv. rewrite Hp in Hv. destruct Hv as [Hl0 Hc0].
    eexists _, _. split; [reflexivity|].
    split; [|split; [|split; [simpl; lia | simpl; lia]]].
    + apply grown_alloc; [exact Hc|]. simpl. rewrite length_replicate. lia.
    + unfold Slog.set_heap. simpl. rewrite elems_alloc, Hnil. reflexivity.
Qed.

(** slices.Grow(s, n) *)
Lemma Grow_run s n st :
  Spec.valid_slice (Slog.heap st) s ->
  exists s' st',
    Slog.Grow s n st = (Ret s', st') /\
    Spec.grown st s st' s' /\
    Slog.elems (Slog.heap st') s' = Slog.elems (Slog.heap st) s /\
    Slog.len s' = Slog.len s /\
    (n <= Slog.cap s' - Slog.len s')%nat.
Proof.
  intros Hv. unfold Slog.Grow.
  destruct (decide (Slog.cap s - Slog.len s < n)%nat) as [Hshort|Hroom].
  - pose proof (newcap_ge st (Slog.cap s) (Slog.len s + n)) as Hc.
    assert (Hcap : length (take (Slog.cap s) (Slog.array_of (Slog.heap st) s)) = Slog.cap s
                   /\ (Slog.len s <= Slog.cap s)%nat).
    { unfold Spec.valid_slice, Slog.array_of in *. rewrite length_take.
      destruct (Slog.ptr s) as [l|].
      - destruct (Slog.heap st !! l) as [arr|]; [|contradiction]. simpl. lia.
      - simpl. lia. }
    destruct Hcap as [Hcap Hle].
    eexists _, _. split; [reflexivity|].
    split; [|split; [|split; simpl; lia]].
    + apply grown_alloc; [lia|]. rewrite length_app, Hcap, length_replicate. lia.
    + unfold Slog.set_heap. simpl. rewrite elems_alloc.
      rewrite take_app_le by lia. rewrite take_take.
      unfold Slog.elems. f_equal. lia.
  - exists s, st. split; [reflexivity|].
    split; [apply grown_refl, Hv|]. split; [reflexivity|]. split; lia.
Qed.

Lemma Grow_0 s st : Slog.Grow s 0 st = (Ret s, st).
Proof.
  unfold Slog.Grow. destruct (decide (Slog.cap s - Slog.len s < 0)%nat); [lia | reflexivity].
Qed.

(** The last loop of AddAttrs appends what is not an empty group, in
    order. *)
Lemma append_nonempty_run attrs : forall s st,
  Spec.valid_slice (Slog.heap st) s ->
  exists s' st',
    Slog.append_nonempty s attrs st = (Ret s', st') /\
    Spec.grown st s st' s' /\
    Slog.elems (Slog.heap st') s' = Slog.elems (Slog.heap st) s ++ Spec.nonempty_groups attrs.
Proof.
  induction attrs as [|a attrs IH]; intros s st Hv.
  - exists s, st. split; [reflexivity|]. split; [apply grown_refl, Hv|].
    rewrite filter_nil, app_nil_r. reflexivity.
  - cbn [Slog.append_nonempty]. rewrite filter_cons.
    destruct (Slog.isEmptyGroup (Slog.Val a)) eqn:Ha.
    + destruct (decide (true = false)); [discriminate|]. apply IH, Hv.
    + destruct (decide (false = false)); [|contradiction].
      destruct (append_run s a st Hv) as (s1 & st1 & Hrun1 & Hg1 & He1 & _).
      destruct (IH s1 st1 (proj1 Hg1)) as (s2 & st2 & Hrun2 & Hg2 & He2).
      exists s2, st2. split; [|split].
      * unfold bind. rewrite Hrun1. exact Hrun2.
      * eapply grown_trans; eassumption.
      * rewrite He2, He1, <- app_assoc. reflexivity.
Qed.

(** The first loop of AddAttrs. *)
Lemma fill_front_spec attrs : forall r r1 rest,
  Slog.fill_front r attrs = (r1, rest) ->
  length (Slog.front r) = Slog.nAttrsInline ->
  (Slog.nFront r <= Slog.nAttrsInline)%nat ->
  length (Slog.front r1) = Slog.nAttrsInline /\
  (Slog.nFront r <= Slog.nFront r1 <= Slog.nAttrsInline)%nat /\
  Slog.set_back r1 (Slog.back r) = r1 /\
  (Slog.Time r1, Slog.Message r1, Slog.Level r1, Slog.PC r1)
    = (Slog.Time r, Slog.Message r, Slog.Level r, Slog.PC r) /\
  ((Slog.nFront r1 < Slog.nAttrsInline)%nat -> rest = []) /\
  (Slog.nFront r = Slog.nAttrsInline -> r1 = r /\ rest = attrs) /\
  exists taken,
    take (Slog.nFront r1) (Slog.front r1) = take (Slog.nFront r) (Slog.front r) ++ taken /\
    Spec.nonempty_groups attrs = taken ++ Spec.nonempty_groups rest.
Proof.
  induction attrs as [|a attrs IH]; intros r r1 rest Hff Hlen Hn.
  - injection Hff as <- <-. repeat split; try lia; try (destruct r; reflexivity).
    exists []. rewrite app_nil_r. split; reflexivity.
  - cbn [Slog.fill_front] in Hff.
    destruct (decide (Slog.nFront r < Slog.nAttrsInline)%nat) as [Hroom|Hfull].
    + rewrite filter_cons. destruct (Slog.isEmptyGroup (Slog.Val a)) eqn:Ha.
      * destruct (decide (true = false)); [discriminate|].
        destruct (IH r r1 rest Hff Hlen Hn) as (H1 & H2 & H3 & H4 & H5 & H6 & H7).
        repeat split; try assumption; try lia.
      * destruct (decide (false = false)); [|contradiction].
        destruct (IH (Slog.push_front r a) r1 rest Hff) as (H1 & H2 & H3 & H4 & H5 & H6 & taken & H7 & H8).
        { simpl. rewrite length_insert. exact Hlen. }
        { simpl. lia. }
        simpl in H2, H3, H4, H7.
        repeat split; try assumption; try lia.
        exists (a :: taken). split.
        -- rewrite H7. rewrite (take_S_r _ _ a) by (apply list_lookup_insert_eq; lia).
           rewrite take_insert_ge by lia. rewrite <- app_assoc. reflexivity.
        -- rewrite H8. reflexivity.
    + injection Hff as <- <-. repeat split; try lia; try (destruct r; reflexivity).
      exists []. rewrite app_nil_r. split; reflexivity.
Qed.

Lemma length_Attrs h r :
  Spec.wf_record h r -> length (Slog.Attrs h r) = Slog.NumAttrs r.
Proof.
  intros (Hlen & Hn & Hv & _). unfold Slog.Attrs, Slog.NumAttrs.
  rewrite length_app, length_take, (length_elems _ _ Hv). lia.
Qed.

Lemma Attrs_set_back h r b :
  Slog.Attrs h (Slog.set_back r b) = take (Slog.nFront r) (Slog.front r) ++ Slog.elems h b.
Proof. reflexivity. Qed.

(** AddAttrs on a well-formed record: the record it returns lists the
    attributes the record had, then the notice of a modified copy if there
    is one to give, then the new attributes that are not empty groups; the
    heap is written only past the end of the record's overflow slice. *)
Lemma AddAttrs_run r attrs st :
  Spec.wf_record (Slog.heap st) r ->
  exists r' st',
    Slog.AddAttrs r attrs st = (Ret r', st') /\
    Spec.wf_record (Slog.heap st') r' /\
    Slog.Attrs (Slog.heap st') r' =
      Slog.Attrs (Slog.heap st) r ++ Spec.bug_notice (Slog.heap st) r ++ Spec.nonempty_groups attrs /\
    Spec.grown st (Slog.back r) st' (Slog.back r') /\
    (Slog.Time r', Slog.Message r', Slog.Level r', Slog.PC r')
      = (Slog.Time r, Slog.Message r, Slog.Level r, Slog.PC r).
Proof.
  intros (Hlen & Hn & Hv & Hnil).
  unfold Slog.AddAttrs. destruct (Slog.fill_front r attrs) as [r1 rest] eqn:Hff.
  destruct (fill_front_spec attrs r r1 rest Hff Hlen Hn)
    as (Hlen1 & Hn1 & Hback & Hsame & Hrest & Hfull & taken & Htake & Hsplit).
  assert (Hb1 : Slog.back r1 = Slog.back r) by (rewrite <- Hback; reflexivity).
  rewrite Hb1. unfold gets at 1. unfold bind at 1.
  (* the notice *)
  assert (Hbug : exists b1 st1,
            (if Slog.modified_copy (Slog.heap st) (Slog.back r)
             then Slog.append (Slog.Clip (Slog.back r)) Slog.bugAttr
             else ret (Slog.back r)) st = (Ret b1, st1) /\
            Spec.grown st (Slog.back r) st1 b1 /\
            Slog.elems (Slog.heap st1) b1 =
              Slog.elems (Slog.heap st) (Slog.back r) ++ Spec.bug_notice (Slog.heap st) r /\
            (Slog.modified_copy (Slog.heap st) (Slog.back r) = false -> b1 = Slog.back r /\ st1 = st)).
  { unfold Spec.bug_notice.
    destruct (Slog.modified_copy (Slog.heap st) (Slog.back r)) eqn:Hm.
    - assert (Hvc : Spec.valid_slice (Slog.heap st) (Slog.Clip (Slog.back r))).
      { unfold Spec.valid_slice, Slog.Clip in *. simpl.
        destruct (Slog.ptr (Slog.back r)) as [l|]; [|lia].
        destruct (Slog.heap st !! l); [lia | contradiction]. }
      destruct (append_run _ Slog.bugAttr st Hvc) as (b1 & st1 & Hrun & Hg & He & _).
      exists b1, st1. split; [exact Hrun|]. split; [|split; [exact He | discriminate]].
      destruct Hg as (Hg1 & Hg2 & Hg3 & Hg4). split; [exact Hg1|].
      split; [exact Hg2|]. split; [exact Hg3 | exact Hg4].
    - exists (Slog.back r), st. split; [reflexivity|].
      split; [apply grown_refl, Hv|]. rewrite app_nil_r. auto. }
  destruct Hbug as (b1 & st1 & Hrun1 & Hg1 & He1 & Hclean).
  rewrite (bind_run _ _ _ _ _ Hrun1).
  destruct (Grow_run b1 (length rest - Slog.countEmptyGroups rest) st1 (proj1 Hg1))
    as (b2 & st2 & Hrun2 & Hg2 & He2 & _).
  rewrite (bind_run _ _ _ _ _ Hrun2).
  destruct (append_nonempty_run rest b2 st2 (proj1 Hg2)) as (b3 & st3 & Hrun3 & Hg3 & He3).
  rewrite (bind_run _ _ _ _ _ Hrun3).
  exists (Slog.set_back r1 b3), st3. split; [reflexivity|].
  assert (Hg : Spec.grown st (Slog.back r) st3 b3).
  { eapply grown_trans; [|exact Hg3]. eapply grown_trans; eassumption. }
  split; [|split; [|split; [exact Hg | exact Hsame]]].
  - (* the invariant *)
    split; [exact Hlen1|]. split; [exact (proj2 Hn1)|]. split; [exact (proj1 Hg)|].
    change (Slog.nFront r1 < Slog.nAttrsInline -> Slog.cap b3 = 0)%nat. intros Hlt. rewrite (Hrest Hlt) in *.
    assert (Hc0 : Slog.cap (Slog.back r) = 0%nat) by (apply Hnil; lia).
    assert (Hm : Slog.modified_copy (Slog.heap st) (Slog.back r) = false).
    { unfold Slog.modified_copy. rewrite Hc0.
      destruct (decide (Slog.len (Slog.back r) < 0)%nat); [lia | reflexivity]. }
    destruct (Hclean Hm) as [-> ->].
    simpl in Hrun2. rewrite Grow_0 in Hrun2. injection Hrun2 as <- <-.
    injection Hrun3 as <- <-. exact Hc0.
  - (* the attributes *)
    rewrite Attrs_set_back, He3, He2, He1, Htake, Hsplit. unfold Slog.Attrs.
    destruct (decide (Slog.nFront r = Slog.nAttrsInline)) as [Hfull5|Hroom].
    + destruct (Hfull Hfull5) as [-> ->].
      assert (taken = []) as ->.
      { apply (f_equal length) in Hsplit. rewrite length_app in Hsplit.
        destruct taken; [reflexivity | simpl in Hsplit; lia]. }
      rewrite <- ?app_assoc, ?app_nil_l, ?app_nil_r. reflexivity.
    + assert (Hc0 : Slog.cap (Slog.back r) = 0%nat) by (apply Hnil; lia).
      assert (Hl0 : Slog.len (Slog.back r) = 0%nat).
      { unfold Spec.valid_slice in Hv. destruct (Slog.ptr (Slog.back r)) as [l|]; [|lia].
        destruct (Slog.heap st !! l); [lia | contradiction]. }
      unfold Spec.bug_notice, Slog.modified_copy. rewrite Hc0, Hl0.
      unfold Slog.elems at 1 2. rewrite Hl0, take_0.
      destruct (decide (0 < 0)%nat); [lia|].
      rewrite <- ?app_assoc, ?app_nil_l, ?app_nil_r. reflexivity.
Qed.

End Memory.

(** ** The Enriching Log Handler *)

Section Decorator.
Context {W H : Type} `{!Slog.Handler W H}.
Implicit Types (ch : Logger.ContextHandler H) (ctx : Context.Context)
  (r : Slog.Record) (st : Slog.St W).

(** The accessor returns exactly on the keys that are unbound, nil or
    bound to a string. *)
Lemma get_cases ctx key :
  (Spec.stringly ctx key /\ Spec.get ctx key = Ret (Spec.field ctx key)) \/
  (~ Spec.stringly ctx key /\ exists msg, Spec.get ctx key = Panic msg).
Proof.
  destruct (Spec.binding ctx key) as [v|] eqn:Hb.
  - assert (Hcase : (v = ANil \/ exists s, v = AString s) \/
                    (v <> ANil /\ forall s, v <> AString s)).
    { destruct v; eauto; right; split; congruence. }
    destruct Hcase as [Hs | [Hnil Hstr]].
    + left. assert (Spec.stringly ctx key) as Hok.
      { unfold Spec.stringly. rewrite Hb. destruct Hs as [-> | [s ->]]; exact I. }
      split; [exact Hok | apply get_stringly, Hok].
    + right. split.
      * unfold Spec.stringly. rewrite Hb. destruct v; try tauto.
        exfalso. eapply Hstr. reflexivity.
      * apply (getDefaultValueFromContext_panic_on _ _ _ Hb Hnil Hstr).
  - left. assert (Spec.stringly ctx key) as Hok.
    { unfold Spec.stringly. rewrite Hb. exact I. }
    split; [exact Hok | apply get_stringly, Hok].
Qed.

(** addRequestId builds the one group, or panics at the first key that is
    bound to something else than a string. *)
Lemma addRequestId_cases ctx :
  (Spec.metadata_stringly ctx /\
   Logger.addRequestId ctx = Ret [Spec.meta_information ctx]) \/
  (~ Spec.metadata_stringly ctx /\ exists msg, Logger.addRequestId ctx = Panic msg).
Proof.
  unfold Spec.metadata_stringly, Spec.meta_keys, Logger.addRequestId.
  destruct (get_cases ctx "correlation_id") as [[S1 G1] | [S1 [m G1]]];
    unfold Spec.get in G1; rewrite G1; cbn [obind];
    [| right; split; [intros Hall; inversion Hall; contradiction | eauto]].
  destruct (get_cases ctx "request_method") as [[S2 G2] | [S2 [m G2]]];
    unfold Spec.get in G2; rewrite G2; cbn [obind];
    [| right; split; [intros Hall; inversion Hall as [|? ? _ Hall']; inversion Hall'; contradiction | eauto]].
  destruct (get_cases ctx "request_path") as [[S3 G3] | [S3 [m G3]]];
    unfold Spec.get in G3; rewrite G3; cbn [obind];
    [| right; split; [intros Hall; inversion Hall as [|? ? _ Hall']; inversion Hall' as [|? ? _ Hall''];
                      inversion Hall''; contradiction | eauto]].
  destruct (get_cases ctx "request_user_agent") as [[S4 G4] | [S4 [m G4]]];
    unfold Spec.get in G4; rewrite G4; cbn [obind];
    [| right; split; [intros Hall; inversion Hall as [|? ? _ Hall']; inversion Hall' as [|? ? _ Hall''];
                      inversion Hall'' as [|? ? _ Hall3]; inversion Hall3; contradiction | eauto]].
  left. split; [repeat constructor; assumption | reflexivity].
Qed.

(** A run of Handle on a context whose metadata keys are stringly: the
    group is added to the callee's copy, and the sink is called on it. *)
Lemma Handle_run ch ctx r st :
  Spec.metadata_stringly ctx ->
  Spec.wf_record (Slog.heap st) r ->
  exists r' st1,
    Slog.AddAttrs r [Spec.meta_information ctx] st = (Ret r', st1) /\
    Logger.Handle ch ctx r st = Slog.Handle (Logger.Handler ch) ctx r' st1 /\
    Spec.wf_record (Slog.heap st1) r' /\
    Slog.Attrs (Slog.heap st1) r' =
      Slog.Attrs (Slog.heap st) r ++ Spec.bug_notice (Slog.heap st) r ++ [Spec.meta_information ctx] /\
    Spec.grown st (Slog.back r) st1 (Slog.back r') /\
    (Slog.Time r', Slog.Message r', Slog.Level r', Slog.PC r')
      = (Slog.Time r, Slog.Message r, Slog.Level r, Slog.PC r).
Proof.
  intros Hctx Hwf.
  destruct (addRequestId_cases ctx) as [[_ Hadd] | [Hno _]]; [|contradiction].
  destruct (AddAttrs_run r [Spec.meta_information ctx] st Hwf)
    as (r' & st1 & Hrun & Hwf' & Hattrs & Hg & Hsame).
  exists r', st1. split; [exact Hrun|].
  split; [|split; [exact Hwf' | split; [exact Hattrs | split; [exact Hg | exact Hsame]]]].
  unfold Logger.Handle. unfold bind at 1. unfold lift. rewrite Hadd.
  rewrite (bind_run _ _ _ _ _ Hrun). reflexivity.
Qed.

(** On any other context Handle panics before it touches anything. *)
Lemma Handle_panics ch ctx r st :
  ~ Spec.metadata_stringly ctx ->
  exists msg, Logger.Handle ch ctx r st = (Panic msg, st).
Proof.
  intros Hctx.
  destruct (addRequestId_cases ctx) as [[Hyes _] | [_ [msg Hadd]]]; [contradiction|].
  exists msg. unfold Logger.Handle. unfold bind at 1. unfold lift. rewrite Hadd. reflexivity.
Qed.

End Decorator.

Section DecoratorClaims.
Context {W H : Type} `{!Slog.Handler W H}.
Implicit Types (ch : Logger.ContextHandler H) (ctx : Context.Context)
  (r : Slog.Record) (st : Slog.St W).

(** C1 (as amended): for every context in which each of the four metadata
    keys is unbound, nil or bound to a string, and every record, Handle
    hands the sink a copy of the record that lists the attributes the record
    had and then, last, exactly one group attribute named meta_information
    (slog's notice of a modified copy goes between the two when the record is
    one); the group has exactly the keys correlation_id, request_method,
    request_path and request_user_agent, in this order, each with the string
    bound to it in the context, or the empty string when it has none.  The
    sink's world is untouched until then. *)
Theorem Handle_appends_meta_information ch ctx r st :
  Spec.metadata_stringly ctx ->
  Spec.wf_record (Slog.heap st) r ->
  exists r' st1,
    Logger.Handle ch ctx r st = Slog.Handle (Logger.Handler ch) ctx r' st1 /\
    Slog.world st1 = Slog.world st /\
    Slog.Attrs (Slog.heap st1) r' =
      Slog.Attrs (Slog.heap st) r ++ Spec.bug_notice (Slog.heap st) r
        ++ [Spec.meta_information ctx] /\
    Slog.NumAttrs r' =
      (Slog.NumAttrs r + length (Spec.bug_notice (Slog.heap st) r) + 1)%nat /\
    Spec.meta_information ctx =
      Slog.mkAttr "meta_information"
        (Slog.GroupV
           [Slog.String "correlation_id" (Spec.field ctx "correlation_id");
            Slog.String "request_method" (Spec.field ctx "request_method");
            Slog.String "request_path" (Spec.field ctx "request_path");
            Slog.String "request_user_agent" (Spec.field ctx "request_user_agent")]) /\
    Forall (fun key => Logger.getDefaultValueFromContext ctx key = Ret (Spec.field ctx key))
      Spec.meta_keys /\
    (forall key, Spec.binding ctx key = None -> Spec.field ctx key = "") /\
    (forall key s, Spec.binding ctx key = Some (AString s) -> Spec.field ctx key = s) /\
    (Slog.modified_copy (Slog.heap st) (Slog.back r) = false ->
       Spec.bug_notice (Slog.heap st) r = []).
Proof.
  intros Hctx Hwf.
  destruct (Handle_run ch ctx r st Hctx Hwf) as (r' & st1 & _ & Hrun & Hwf' & Hattrs & Hg & _).
  exists r', st1. split; [exact Hrun|].
  split; [exact (proj1 (proj2 (proj2 (proj2 Hg))))|].
  split; [exact Hattrs|]. split.
  { rewrite <- (length_Attrs _ _ Hwf'), <- (length_Attrs _ _ Hwf), Hattrs.
    rewrite !length_app. simpl. lia. }
  split; [reflexivity|].
  split; [eapply Forall_impl; [exact Hctx | intros key; apply get_stringly]|].
  unfold Spec.field, Spec.bug_notice. repeat split.
  - intros key ->. reflexivity.
  - intros key s ->. reflexivity.
  - intros ->. reflexivity.
Qed.

(** C6 (as amended): Handle raises exactly when one of the four metadata
    keys is bound to something that is neither nil nor a string, and then
    before the sink is called.  On every other context its result is exactly
    the result of the sink's Handle, called once on the enriched record:
    what the sink returns, fails with or panics with is what Handle does,
    and the state the sink leaves is the state Handle leaves. *)
Theorem Handle_result_is_the_sinks ch ctx r st :
  Spec.wf_record (Slog.heap st) r ->
  (Spec.metadata_stringly ctx ->
     exists r' st1,
       Slog.AddAttrs r [Spec.meta_information ctx] st = (Ret r', st1) /\
       Slog.world st1 = Slog.world st /\
       Logger.Handle ch ctx r st = Slog.Handle (Logger.Handler ch) ctx r' st1) /\
  (~ Spec.metadata_stringly ctx ->
     exists msg, Logger.Handle ch ctx r st = (Panic msg, st)).
Proof.
  intros Hwf. split.
  - intros Hctx.
    destruct (Handle_run ch ctx r st Hctx Hwf) as (r' & st1 & Hadd & Hrun & _ & _ & Hg & _).
    exists r', st1. split; [exact Hadd|]. split; [|exact Hrun].
    exact (proj1 (proj2 (proj2 (proj2 Hg)))).
  - apply Handle_panics.
Qed.

Lemma derive_all_ContextHandler ds : forall ch,
  Spec.derive_all ch ds = Logger.mkContextHandler (Spec.derive_all (Logger.Handler ch) ds).
Proof.
  induction ds as [|d ds IH]; intros ch.
  - destruct ch. reflexivity.
  - unfold Spec.derive_all in *. cbn [foldl]. rewrite IH. destruct d; reflexivity.
Qed.

(** C4: WithAttrs and WithGroup of a ContextHandler return a ContextHandler
    around what the inner sink returns for the same call, never that bare
    result; so a handler derived by any series of the two is the decorator
    around the sink derived by the same series, its Handle is the
    decorator's Handle, and it hands the derived sink the record enriched
    with the meta_information group. *)
Theorem derived_handlers_still_enrich ch :
  (forall attrs,
     Slog.WithAttrs ch attrs
     = Logger.mkContextHandler (Slog.WithAttrs (Logger.Handler ch) attrs)) /\
  (forall name,
     Slog.WithGroup ch name
     = Logger.mkContextHandler (Slog.WithGroup (Logger.Handler ch) name)) /\
  (forall ds,
     Spec.derive_all ch ds
     = Logger.mkContextHandler (Spec.derive_all (Logger.Handler ch) ds) /\
     forall ctx r st,
       Slog.Handle (Spec.derive_all ch ds) ctx r st
       = Logger.Handle (Logger.mkContextHandler (Spec.derive_all (Logger.Handler ch) ds)) ctx r st /\
       (Spec.metadata_stringly ctx -> Spec.wf_record (Slog.heap st) r ->
        exists r' st1,
          Slog.Handle (Spec.derive_all ch ds) ctx r st
          = Slog.Handle (Spec.derive_all (Logger.Handler ch) ds) ctx r' st1 /\
          Slog.Attrs (Slog.heap st1) r' =
            Slog.Attrs (Slog.heap st) r ++ Spec.bug_notice (Slog.heap st) r
              ++ [Spec.meta_information ctx])).
Proof.
  split; [reflexivity|]. split; [reflexivity|].
  intros ds. split; [apply derive_all_ContextHandler|].
  intros ctx r st. rewrite derive_all_ContextHandler. split; [reflexivity|].
  intros Hctx Hwf.
  destruct (Handle_run (Logger.mkContextHandler (Spec.derive_all (Logger.Handler ch) ds))
              ctx r st Hctx Hwf) as (r' & st1 & _ & Hrun & _ & Hattrs & _).
  exists r', st1. split; [exact Hrun | exact Hattrs].
Qed.

(** The decorator writes the heap only past the end of the overflow slice
    of the record it was given, if its sink does. *)
Lemma Handle_frame ch ctx r st :
  Spec.frame_respecting W H ->
  Spec.wf_record (Slog.heap st) r ->
  Spec.frame (Slog.heap st) (Slog.heap (Logger.Handle ch ctx r st).2) (Slog.back r).
Proof.
  intros Hsink Hwf.
  destruct (addRequestId_cases ctx) as [[Hctx _] | [Hctx _]].
  - destruct (Handle_run ch ctx r st Hctx Hwf) as (r' & st1 & _ & Hrun & Hwf' & _ & Hg & _).
    rewrite Hrun. destruct Hg as (_ & Hf & Hd & _).
    eapply frame_trans; [exact Hf | apply Hsink, Hwf' | exact Hd].
  - destruct (Handle_panics ch ctx r st Hctx) as [msg ->]. apply frame_refl.
Qed.

Lemma ContextHandler_frame_respecting :
  Spec.frame_respecting W H -> Spec.frame_respecting W (Logger.ContextHandler H).
Proof. intros Hsink ch ctx r st Hwf. apply Handle_frame; assumption. Qed.


End DecoratorClaims.

(** ** The decorator over the in-memory sink *)

(** The in-memory sink reads the heap and never writes it. *)
Lemma MemSink_frame_respecting : Spec.frame_respecting (list MemSink.Entry) MemSink.MemHandler.
Proof.
  intros h ctx r st _. simpl. unfold MemSink.mem_Handle.
  destruct (MemSink.writeError h); apply frame_refl.
Qed.

(** C1 on a record logged before any middleware ran: the group is there,
    with four empty strings. *)
Lemma Handle_appends_meta_information_unpopulated :
  exists r' st1,
    Logger.Handle Fixtures.ctxHandler Context.Background Fixtures.record0 MemSink.st0
    = Slog.Handle (Logger.Handler Fixtures.ctxHandler) Context.Background r' st1 /\
    Slog.world st1 = [] /\
    Slog.Attrs (Slog.heap st1) r' =
      [Slog.mkAttr "meta_information"
         (Slog.GroupV [Slog.String "correlation_id" ""; Slog.String "request_method" "";
                       Slog.String "request_path" ""; Slog.String "request_user_agent" ""])].
Proof.
  destruct (Handle_appends_meta_information Fixtures.ctxHandler Context.Background
              Fixtures.record0 MemSink.st0)
    as (r' & st1 & Hrun & Hworld & Hattrs & _).
  - stringly_by_computation.
  - wf_by_computation.
  - exists r', st1. split; [exact Hrun|]. split; [exact Hworld | exact Hattrs].
Defined.

(** C1 (as stated) fails: on a context that binds request_path to an int,
    Handle panics; no group is appended and the sink sees no record. *)
Lemma Handle_appends_nothing_on_foreign_binding :
  Logger.Handle Fixtures.ctxHandler Fixtures.foreign Fixtures.record0 MemSink.st0
  = (Panic "interface conversion: interface {} is int, not string", MemSink.st0) /\
  Slog.world (Logger.Handle Fixtures.ctxHandler Fixtures.foreign Fixtures.record0 MemSink.st0).2 = [].
Proof. split; reflexivity. Qed.

(** C6 on a sink whose write fails: the failure comes back as it is. *)
Lemma Handle_result_is_the_sinks_broken_pipe :
  (Logger.Handle Fixtures.ctxHandler_broken Fixtures.populated Fixtures.record7 Fixtures.st7).1
  = Ret (Some "write: broken pipe").
Proof.
  destruct (Handle_result_is_the_sinks Fixtures.ctxHandler_broken Fixtures.populated
              Fixtures.record7 Fixtures.st7) as [Hok _].
  - wf_by_computation.
  - destruct Hok as (r' & st1 & _ & _ & Hrun).
    + stringly_by_computation.
    + rewrite Hrun. reflexivity.
Defined.

(** C6 (as stated) fails: Handle raises on a context that binds
    request_path to an int, although its sink, called on any record in that
    state, would have returned nil. *)
Lemma Handle_raises_on_foreign_binding :
  (Logger.Handle Fixtures.ctxHandler Fixtures.foreign Fixtures.record0 MemSink.st0).1
  = Panic "interface conversion: interface {} is int, not string" /\
  forall r, (Slog.Handle (Logger.Handler Fixtures.ctxHandler) Fixtures.foreign r MemSink.st0).1
            = Ret None.
Proof. split; [reflexivity | intros r; reflexivity]. Qed.

(** C4 on a logger pre-bound with a static field and then a group. *)
Lemma derived_handlers_still_enrich_service_http :
  let ds := [Spec.ByAttrs [Slog.String "service" "bank"]; Spec.ByGroup "http"] in
  Spec.derive_all Fixtures.ctxHandler ds
  = Logger.mkContextHandler
      (MemSink.mkMemHandler Slog.LevelInfo [Slog.String "service" "bank"] ["http"] None) /\
  Slog.world (Slog.Handle (Spec.derive_all Fixtures.ctxHandler ds)
                Fixtures.populated Fixtures.record0 MemSink.st0).2
  = [MemSink.mkEntry Slog.LevelInfo "Logging customer data"
       [Slog.String "service" "bank";
        Slog.Group "http" [Spec.meta_information Fixtures.populated]]].
Proof.
  intros ds.
  destruct (derived_handlers_still_enrich (H:=MemSink.MemHandler) Fixtures.ctxHandler)
    as (_ & _ & Hds).
  destruct (Hds ds) as [Hderived Hhandle].
  split; [rewrite Hderived; reflexivity|].
  destruct (Hhandle Fixtures.populated Fixtures.record0 MemSink.st0) as [-> _].
  reflexivity.
Defined.


(** What slog makes of a record that is handled twice by value: the second
    copy finds the cell past its end taken, moves to a new array and says
    so. *)
Example Handle_twice_on_one_record :
  let st1 := (Logger.Handle Fixtures.ctxHandler Fixtures.populated Fixtures.record7 Fixtures.st7).2 in
  Spec.bug_notice (Slog.heap st1) Fixtures.record7 = [Slog.bugAttr] /\
  MemSink.entry_attrs <$>
    Slog.world (Logger.Handle Fixtures.ctxHandler Fixtures.populated Fixtures.record7 st1).2
  = [map Fixtures.letter ["a"; "b"; "c"; "d"; "e"; "f"; "g"]
       ++ [Spec.meta_information Fixtures.populated];
     map Fixtures.letter ["a"; "b"; "c"; "d"; "e"; "f"; "g"]
       ++ [Slog.bugAttr; Spec.meta_information Fixtures.populated]].
Proof. split; reflexivity. Qed.

(** ** The example of section 8

    GET /get_customer from test-agent goes through both middlewares; the
    record logged with the request's context then carries the method, the
    path, the user agent and the generated id. *)
Example get_customer_end_to_end :
  let app : Main.HandlerFunc unit := gets (fun env => Some (Main.RequestURI (Main.request env))) in
  let served := (Main.CorrelationId (Main.AddRouteMetaData app) Fixtures.working_env).2 in
  Main.Request_Context (Main.request served) = Fixtures.populated /\
  MemSink.entry_attrs <$>
    Slog.world (Logger.Handle Fixtures.ctxHandler
                  (Main.Request_Context (Main.request served)) Fixtures.record0 MemSink.st0).2
  = [[Slog.mkAttr "meta_information"
        (Slog.GroupV
           [Slog.String "correlation_id" "cdd18a07-9e30-a6a8-dcf4-08b91c8f41ff";
            Slog.String "request_method" "GET";
            Slog.String "request_path" "/get_customer";
            Slog.String "request_user_agent" "test-agent"])]].
Proof. split; reflexivity. Qed.

(** * Further properties of the code *)

(** ** The middlewares, one by one and in sequence *)

Section MiddlewareRuns.
Context {R : Type}.
Implicit Types (e : Main.Env R) (next : Main.HandlerFunc R).

(** One equation for both outcomes of the generator. *)
Lemma CorrelationId_run next e :
  Main.CorrelationId next e
  = next (Spec.with_request e (Chain.correlated e) (Chain.generation_calls e) 1).
Proof.
  unfold Chain.correlated, Chain.generation_calls, Chain.request_id.
  destruct (Main.uuid_outcomes e (Main.uuid_calls e)) as [id [msg|]] eqn:Hid.
  - apply (CorrelationId_run_failed next e id msg Hid).
  - apply (CorrelationId_run_ok next e id Hid).
Qed.

Lemma binding_route_context req key :
  Spec.binding (Spec.route_context req) key =
  if decide (key = "request_user_agent") then Some (AString (Main.UserAgent req))
  else if decide (key = "request_method") then Some (AString (Main.Method req))
  else if decide (key = "request_path") then Some (AString (Main.RequestURI req))
  else Spec.binding (Main.Request_Context req) key.
Proof.
  unfold Spec.route_context. rewrite !binding_cons.
  repeat match goal with
         | |- context [decide (AString ?a = AString ?b)] =>
             destruct (decide (AString a = AString b)) as [E|E];
             [injection E as <- | assert (b <> a) by congruence]
         end;
  repeat match goal with
         | |- context [decide (?a = ?b)] => destruct (decide (a = b))
         end; congruence.
Qed.

Lemma binding_correlation_context req id key :
  Spec.binding (Spec.correlation_context req id) key =
  if decide (key = "correlation_id") then Some (AString id)
  else Spec.binding (Main.Request_Context req) key.
Proof.
  unfold Spec.correlation_context. rewrite binding_cons.
  destruct (decide (AString "correlation_id" = AString key)) as [E|E].
  - injection E as <-. destruct (decide ("correlation_id" = "correlation_id")); congruence.
  - destruct (decide (key = "correlation_id")); congruence.
Qed.

Lemma get_of_binding ctx key s :
  Spec.binding ctx key = Some (AString s) -> Spec.get ctx key = Ret s.
Proof. intros Hb. rewrite (get_bound _ _ _ Hb). reflexivity. Qed.







(** X2: AddRouteMetaData changes nothing of what it hands on but the
    context: the request keeps its method, URI and headers, the response, the
    log and the generator are as they were, and every key other than
    request_path, request_method and request_user_agent is bound as in the
    incoming context; a correlation id bound before is still read behind
    it. *)
Theorem AddRouteMetaData_frame next e :
  let e' := Spec.with_request e (Chain.routed (Main.request e)) [] 0 in
  Main.AddRouteMetaData next e = next e' /\
  (Main.Method (Main.request e'), Main.RequestURI (Main.request e'), Main.header (Main.request e'))
    = (Main.Method (Main.request e), Main.RequestURI (Main.request e), Main.header (Main.request e)) /\
  (Main.response e', Main.logged e', Main.uuid_calls e')
    = (Main.response e, Main.logged e, Main.uuid_calls e) /\
  (forall key, key ∉ Chain.route_keys ->
     Spec.binding (Main.Request_Context (Main.request e')) key
       = Spec.binding (Main.Request_Context (Main.request e)) key /\
     Logger.getDefaultValueFromContext (Main.Request_Context (Main.request e')) key
       = Logger.getDefaultValueFromContext (Main.Request_Context (Main.request e)) key).
Proof.
  intros e'. split; [apply AddRouteMetaData_run|]. split; [reflexivity|].
  split; [subst e'; unfold Spec.with_request; cbn; rewrite app_nil_r, Nat.add_0_r; reflexivity|].
  intros key Hkey.
  assert (Hb : Spec.binding (Main.Request_Context (Main.request e')) key
               = Spec.binding (Main.Request_Context (Main.request e)) key).
  { change (Main.Request_Context (Main.request e')) with (Spec.route_context (Main.request e)).
    rewrite binding_route_context. unfold Chain.route_keys in Hkey.
    repeat match goal with
           | |- context [decide (?a = ?b)] => destruct (decide (a = b)) as [->|?]
           end; try reflexivity; exfalso; apply Hkey; set_solver. }
  split; [exact Hb|].
  unfold Logger.getDefaultValueFromContext. rewrite !Value_binding, Hb. reflexivity.
Qed.

(** X3: when uuid.GenerateUUID succeeds, CorrelationId binds exactly the
    generated id, makes no call to the logging frontend, takes one outcome of
    the generator, and leaves the method, URI and headers of the request, the
    response, and the binding of every other key as they were. *)
Theorem CorrelationId_success next e id :
  Main.uuid_outcomes e (Main.uuid_calls e) = (id, None) ->
  let e' := Spec.with_request e (Chain.correlated e) [] 1 in
  Main.CorrelationId next e = next e' /\
  Logger.getDefaultValueFromContext (Main.Request_Context (Main.request e')) "correlation_id"
    = Ret id /\
  (Main.response e', Main.logged e', Main.uuid_calls e')
    = (Main.response e, Main.logged e, S (Main.uuid_calls e)) /\
  (Main.Method (Main.request e'), Main.RequestURI (Main.request e'), Main.header (Main.request e'))
    = (Main.Method (Main.request e), Main.RequestURI (Main.request e), Main.header (Main.request e)) /\
  (forall key, key <> "correlation_id" ->
     Spec.binding (Main.Request_Context (Main.request e')) key
       = Spec.binding (Main.Request_Context (Main.request e)) key).
Proof.
  intros Hid e'.
  assert (Hrid : Chain.request_id e = id) by (unfold Chain.request_id; rewrite Hid; reflexivity).
  assert (Hcalls : Chain.generation_calls e = [])
    by (unfold Chain.generation_calls; rewrite Hid; reflexivity).
  split; [rewrite CorrelationId_run, Hcalls; reflexivity|].
  split.
  { apply (get_of_binding (Main.Request_Context (Main.request e'))).
    change (Main.Request_Context (Main.request e'))
      with (Spec.correlation_context (Main.request e) (Chain.request_id e)).
    rewrite binding_correlation_context, Hrid. reflexivity. }
  split; [subst e'; unfold Spec.with_request; cbn; rewrite app_nil_r, Nat.add_1_r; reflexivity|].
  split; [reflexivity|].
  intros key Hkey.
  change (Main.Request_Context (Main.request e'))
    with (Spec.correlation_context (Main.request e) (Chain.request_id e)).
  rewrite binding_correlation_context.
  destruct (decide (key = "correlation_id")); [contradiction | reflexivity].
Qed.


End MiddlewareRuns.

(** X3 on the environment whose generator works. *)
Lemma CorrelationId_success_working_env :
  (Main.CorrelationId Fixtures.quiet Fixtures.working_env).1 = Ret None /\
  Main.logged (Main.CorrelationId Fixtures.quiet Fixtures.working_env).2 = [] /\
  Logger.getDefaultValueFromContext
    (Main.Request_Context (Main.request (Main.CorrelationId Fixtures.quiet Fixtures.working_env).2))
    "correlation_id"
  = Ret "cdd18a07-9e30-a6a8-dcf4-08b91c8f41ff".
Proof.
  destruct (CorrelationId_success Fixtures.quiet Fixtures.working_env
              "cdd18a07-9e30-a6a8-dcf4-08b91c8f41ff" eq_refl) as (Hrun & Hget & _).
  rewrite Hrun. split; [reflexivity|]. split; [reflexivity | exact Hget].
Defined.

(** ** randomString *)

Section RandomString.





End RandomString.


(** ** The decorator: levels, the record it hands on, the heap it shares *)

Section DecoratorRuns.
Context {W H : Type} `{!Slog.Handler W H}.
Implicit Types (ch : Logger.ContextHandler H) (ctx : Context.Context)
  (r : Slog.Record) (st : Slog.St W) (a : Slog.Attr).

Lemma meta_information_nonempty ctx :
  Slog.isEmptyGroup (Slog.Val (Spec.meta_information ctx)) = false /\
  Slog.isEmpty (Spec.meta_information ctx) = false.
Proof. split; reflexivity. Qed.

(** AddAttrs of one attribute on a record with a free inline cell: the
    attribute goes there and the heap is not touched. *)
Lemma AddAttrs_inline r a st :
  Spec.wf_record (Slog.heap st) r ->
  (Slog.nFront r < Slog.nAttrsInline)%nat ->
  Slog.isEmptyGroup (Slog.Val a) = false ->
  Slog.AddAttrs r [a] st = (Ret (Slog.push_front r a), st) /\
  Spec.wf_record (Slog.heap st) (Slog.push_front r a).
Proof.
  intros (Hlen & Hn & Hv & Hnil) Hroom Ha. pose proof (Hnil Hroom) as Hc0. split.
  - unfold Slog.AddAttrs. cbn [Slog.fill_front].
    destruct (decide (Slog.nFront r < Slog.nAttrsInline)%nat); [|contradiction].
    rewrite Ha. cbn [Slog.fill_front]. unfold gets at 1. unfold bind at 1.
    cbn [Slog.push_front Slog.back].
    assert (Hm : Slog.modified_copy (Slog.heap st) (Slog.back r) = false).
    { unfold Slog.modified_copy. rewrite Hc0.
      destruct (decide (Slog.len (Slog.back r) < 0)%nat); [lia | reflexivity]. }
    rewrite Hm. unfold ret at 1. unfold bind at 1.
    erewrite bind_run by apply Grow_0. reflexivity.
  - split; [simpl; rewrite length_insert; exact Hlen|].
    split; [simpl; unfold Slog.nAttrsInline in *; lia|].
    split; [exact Hv|]. intros _. exact Hc0.
Qed.

(** AddAttrs of one attribute on a record whose overflow array has room
    past its end, with a zero cell there: the attribute is written into that
    cell of the array the caller shares. *)
Lemma AddAttrs_in_place r a st :
  Spec.wf_record (Slog.heap st) r ->
  (Slog.len (Slog.back r) < Slog.cap (Slog.back r))%nat ->
  Slog.modified_copy (Slog.heap st) (Slog.back r) = false ->
  Slog.isEmptyGroup (Slog.Val a) = false ->
  exists l arr,
    Slog.ptr (Slog.back r) = Some l /\
    Slog.heap st !! l = Some arr /\
    (Slog.len (Slog.back r) < length arr)%nat /\
    Slog.AddAttrs r [a] st =
      (Ret (Slog.set_back r (Slog.mkSlice (Some l) (S (Slog.len (Slog.back r)))
                               (Slog.cap (Slog.back r)))),
       Slog.set_heap (alter (fun arr => <[Slog.len (Slog.back r) := a]> arr) l) st).
Proof.
  intros (Hlen & Hn & Hv & Hnil) Hroom Hm Ha.
  assert (Hfull : ~ (Slog.nFront r < Slog.nAttrsInline)%nat).
  { intros Hlt. specialize (Hnil Hlt). lia. }
  unfold Spec.valid_slice in Hv.
  destruct (Slog.ptr (Slog.back r)) as [l|] eqn:Hp; [|lia].
  destruct (Slog.heap st !! l) as [arr|] eqn:Hl; [|contradiction].
  exists l, arr. split; [reflexivity|]. split; [exact Hl|]. split; [lia|].
  unfold Slog.AddAttrs. cbn [Slog.fill_front].
  destruct (decide (Slog.nFront r < Slog.nAttrsInline)%nat); [contradiction|].
  unfold gets at 1. unfold bind at 1. rewrite Hm. unfold ret at 1. unfold bind at 1.
  assert (Hne : Slog.countEmptyGroups [a] = 0%nat).
  { unfold Slog.countEmptyGroups. rewrite filter_cons, Ha.
    destruct (decide (false = true)); [discriminate | reflexivity]. }
  rewrite Hne. unfold Slog.Grow at 1.
  destruct (decide (Slog.cap (Slog.back r) - Slog.len (Slog.back r) < length [a] - 0)%nat)
    as [Hshort|_]; [simpl in Hshort; lia|].
  unfold bind at 1. cbn [Slog.append_nonempty]. rewrite Ha.
  unfold bind at 1. unfold Slog.append. rewrite Hp.
  destruct (decide (Slog.len (Slog.back r) < Slog.cap (Slog.back r))%nat); [|contradiction].
  reflexivity.
Qed.

(** X7: Enabled of the decorator, and of every handler derived from it by
    WithAttrs and WithGroup, is the answer of the sink derived the same way:
    the decorator never overrides the level filter. *)
Theorem Enabled_is_the_sinks ch (ds : list Spec.derivation) ctx (level : Z) :
  Slog.Enabled (Spec.derive_all ch ds) ctx level
  = Slog.Enabled (Spec.derive_all (Logger.Handler ch) ds) ctx level.
Proof. rewrite derive_all_ContextHandler. reflexivity. Qed.

(** X8: on a context it does not panic on, Handle hands the sink a record
    with the time, message, level and pc of the one it received, with at
    least as many attributes, and well formed in the heap it leaves; the
    growth policy of the runtime is not touched. *)
Theorem Handle_passes_the_record_through ch ctx r st :
  Spec.metadata_stringly ctx ->
  Spec.wf_record (Slog.heap st) r ->
  exists r' st1,
    Logger.Handle ch ctx r st = Slog.Handle (Logger.Handler ch) ctx r' st1 /\
    (Slog.Time r', Slog.Message r', Slog.Level r', Slog.PC r')
      = (Slog.Time r, Slog.Message r, Slog.Level r, Slog.PC r) /\
    (Slog.NumAttrs r < Slog.NumAttrs r')%nat /\
    Spec.wf_record (Slog.heap st1) r' /\
    Slog.growslice st1 = Slog.growslice st.
Proof.
  intros Hctx Hwf.
  destruct (Handle_run ch ctx r st Hctx Hwf)
    as (r' & st1 & _ & Hrun & Hwf' & Hattrs & Hg & Hsame).
  exists r', st1. split; [exact Hrun|]. split; [exact Hsame|].
  split; [|split; [exact Hwf' | exact (proj2 (proj2 (proj2 (proj2 Hg))))]].
  rewrite <- (length_Attrs _ _ Hwf'), <- (length_Attrs _ _ Hwf), Hattrs.
  rewrite !length_app. simpl. lia.
Qed.

(** X9: for a record with fewer than five attributes Handle is exactly the
    sink's Handle on the record with the group in its next inline cell, in
    the state Handle was called in: nothing is allocated and no array is
    written. *)
Theorem Handle_small_record ch ctx r st :
  Spec.metadata_stringly ctx ->
  Spec.wf_record (Slog.heap st) r ->
  (Slog.nFront r < Slog.nAttrsInline)%nat ->
  Logger.Handle ch ctx r st
  = Slog.Handle (Logger.Handler ch) ctx (Slog.push_front r (Spec.meta_information ctx)) st.
Proof.
  intros Hctx Hwf Hroom.
  destruct (addRequestId_cases ctx) as [[_ Hadd] | [Hno _]]; [|contradiction].
  destruct (AddAttrs_inline r (Spec.meta_information ctx) st Hwf Hroom
              (proj1 (meta_information_nonempty ctx))) as [Hrun _].
  unfold Logger.Handle. unfold bind at 1. unfold lift. rewrite Hadd.
  rewrite (bind_run _ _ _ _ _ Hrun). reflexivity.
Qed.

(** X10: Handle appends to its copy without Record.Clone.  On a record whose
    overflow array has room past its end, the group is written into that
    array, which the caller's record shares; the caller's record lists what
    it did, but slog now takes it for a modified copy: handling the same
    record value again hands the sink the record's attributes, then slog's
    !BUG notice, then the group. *)
Theorem Handle_writes_the_shared_array ch ctx r st :
  Spec.frame_respecting W H ->
  Spec.metadata_stringly ctx ->
  Spec.wf_record (Slog.heap st) r ->
  (Slog.len (Slog.back r) < Slog.cap (Slog.back r))%nat ->
  Slog.modified_copy (Slog.heap st) (Slog.back r) = false ->
  let st' := (Logger.Handle ch ctx r st).2 in
  Slog.array_of (Slog.heap st') (Slog.back r) !! Slog.len (Slog.back r)
    = Some (Spec.meta_information ctx) /\
  Slog.modified_copy (Slog.heap st') (Slog.back r) = true /\
  exists r2 st2,
    Logger.Handle ch ctx r st' = Slog.Handle (Logger.Handler ch) ctx r2 st2 /\
    Slog.Attrs (Slog.heap st2) r2 =
      Slog.Attrs (Slog.heap st) r ++ [Slog.bugAttr; Spec.meta_information ctx].
Proof.
  intros Hsink Hctx Hwf Hroom Hclean st'.
  destruct (AddAttrs_in_place r (Spec.meta_information ctx) st Hwf Hroom Hclean
              (proj1 (meta_information_nonempty ctx))) as (l & arr & Hp & Hl & Hin & Hadd).
  destruct (Handle_run ch ctx r st Hctx Hwf) as (r1 & st1 & Hadd' & Hrun & Hwf1 & _).
  rewrite Hadd in Hadd'. injection Hadd' as <- <-.
  pose proof (Hsink (Logger.Handler ch) ctx _ _ Hwf1) as [_ Hf].
  rewrite <- Hrun in Hf. fold st' in Hf.
  destruct (Hf l (<[Slog.len (Slog.back r) := Spec.meta_information ctx]> arr))
    as (arr' & Hl' & _ & Hag).
  { unfold Slog.set_heap. simpl. rewrite list_lookup_alter_eq, Hl. reflexivity. }
  assert (Hcell : Slog.array_of (Slog.heap st') (Slog.back r) !! Slog.len (Slog.back r)
                  = Some (Spec.meta_information ctx)).
  { unfold Slog.array_of. rewrite Hp, Hl'. simpl. rewrite Hag.
    - apply list_lookup_insert_eq. exact Hin.
    - intros _. simpl. lia. }
  assert (Hmod : Slog.modified_copy (Slog.heap st') (Slog.back r) = true).
  { unfold Slog.modified_copy.
    destruct (decide (Slog.len (Slog.back r) < Slog.cap (Slog.back r))%nat); [|contradiction].
    rewrite Hcell. reflexivity. }
  split; [exact Hcell|]. split; [exact Hmod|].
  pose proof (Handle_frame ch ctx r st Hsink Hwf) as Hframe. fold st' in Hframe.
  pose proof Hwf as (Hlen & Hn & Hv & Hnil).
  assert (Hwf' : Spec.wf_record (Slog.heap st') r).
  { split; [exact Hlen|]. split; [exact Hn|].
    split; [exact (valid_slice_frame _ _ _ _ Hv Hframe) | exact Hnil]. }
  destruct (Handle_run ch ctx r st' Hctx Hwf') as (r2 & st2 & _ & Hrun2 & _ & Hattrs2 & _).
  exists r2, st2. split; [exact Hrun2|].
  rewrite Hattrs2. unfold Spec.bug_notice. rewrite Hmod.
  unfold Slog.Attrs. rewrite (elems_frame _ _ _ _ Hv Hframe) by lia.
  rewrite <- !app_assoc. reflexivity.
Qed.

(** X11: a ContextHandler around a ContextHandler appends the group twice:
    the sink is handed the record's attributes, then the group, then the
    group again (each behind slog's notice when there is one to give); for a
    record with at most three attributes, nothing else. *)
Theorem nested_decorators_append_twice ch ctx r st :
  Spec.metadata_stringly ctx ->
  Spec.wf_record (Slog.heap st) r ->
  exists r1 st1 r2 st2,
    Slog.AddAttrs r [Spec.meta_information ctx] st = (Ret r1, st1) /\
    Logger.Handle (Logger.mkContextHandler ch) ctx r st
      = Slog.Handle (Logger.Handler ch) ctx r2 st2 /\
    Slog.Attrs (Slog.heap st2) r2 =
      Slog.Attrs (Slog.heap st) r ++ Spec.bug_notice (Slog.heap st) r
        ++ [Spec.meta_information ctx] ++ Spec.bug_notice (Slog.heap st1) r1
        ++ [Spec.meta_information ctx] /\
    ((S (Slog.nFront r) < Slog.nAttrsInline)%nat ->
       Slog.Attrs (Slog.heap st2) r2 =
         Slog.Attrs (Slog.heap st) r ++ [Spec.meta_information ctx; Spec.meta_information ctx]).
Proof.
  intros Hctx Hwf.
  destruct (Handle_run (Logger.mkContextHandler ch) ctx r st Hctx Hwf)
    as (r1 & st1 & Hadd1 & Hrun1 & Hwf1 & Hattrs1 & _).
  destruct (Handle_run ch ctx r1 st1 Hctx Hwf1) as (r2 & st2 & _ & Hrun2 & _ & Hattrs2 & _).
  exists r1, st1, r2, st2. split; [exact Hadd1|].
  split; [rewrite Hrun1; exact Hrun2|].
  split; [rewrite Hattrs2, Hattrs1, <- !app_assoc; reflexivity|].
  intros Hsmall.
  assert (Hroom : (Slog.nFront r < Slog.nAttrsInline)%nat) by lia.
  destruct (AddAttrs_inline r (Spec.meta_information ctx) st Hwf Hroom
              (proj1 (meta_information_nonempty ctx))) as [Hinline _].
  rewrite Hinline in Hadd1. injection Hadd1 as <- <-.
  pose proof Hwf as (_ & _ & _ & Hnil). pose proof Hwf1 as (_ & _ & _ & Hnil1).
  assert (Hb : forall r0, Slog.cap (Slog.back r0) = 0%nat -> Spec.bug_notice (Slog.heap st) r0 = []).
  { intros r0 Hc. unfold Spec.bug_notice, Slog.modified_copy. rewrite Hc.
    destruct (decide (Slog.len (Slog.back r0) < 0)%nat); [lia | reflexivity]. }
  rewrite Hattrs2, Hattrs1, (Hb r (Hnil Hroom)), (Hb _ (Hnil1 Hsmall)).
  rewrite <- !app_assoc. reflexivity.
Qed.


(** X14: Handle reaches the heap only through the record it is given,
    whenever its sink does: no array is freed or resized, every array other
    than the record's overflow array is left as it was, and that one is left
    as it was below the record's length.  So the decorator is itself a
    handler of that kind, and decorators stack. *)
Theorem Handle_writes_only_past_the_end ch ctx r st :
  Spec.frame_respecting W H ->
  Spec.wf_record (Slog.heap st) r ->
  Spec.frame (Slog.heap st) (Slog.heap (Logger.Handle ch ctx r st).2) (Slog.back r) /\
  Spec.frame_respecting W (Logger.ContextHandler H).
Proof.
  intros Hsink Hwf. split; [apply Handle_frame; assumption|].
  intros ch' ctx' r' st' Hwf'. apply Handle_frame; assumption.
Qed.

End DecoratorRuns.

(** X13: a binding under a key of another dynamic type, such as a named
    string type with the same text, is invisible to the accessor, which looks
    up a plain string: with or without it the accessor returns the same. *)
Theorem accessor_ignores_keys_of_other_types (ctx : Context.Context) (k v : any) (key : string) :
  (forall s, k <> AString s) ->
  Logger.getDefaultValueFromContext ((k, v) :: ctx) key
  = Logger.getDefaultValueFromContext ctx key.
Proof.
  intros Hk. unfold Logger.getDefaultValueFromContext. cbn [Context.Value].
  destruct (decide (k = AString key)) as [E|_]; [|reflexivity].
  exfalso. exact (Hk key E).
Qed.

(** X13 on a correlation id bound under a key of a named type. *)
Lemma accessor_ignores_a_typed_key :
  Logger.getDefaultValueFromContext
    [(ANamed "main.ctxKey" "correlation_id", AString "abc")] "correlation_id" = Ret "".
Proof.
  rewrite (accessor_ignores_keys_of_other_types [] (ANamed "main.ctxKey" "correlation_id")
             (AString "abc") "correlation_id"); [reflexivity | discriminate].
Defined.

(** X8 on the record with seven attributes. *)
Lemma Handle_passes_record7_through :
  exists r' st1,
    Logger.Handle Fixtures.ctxHandler Fixtures.populated Fixtures.record7 Fixtures.st7
      = Slog.Handle (Logger.Handler Fixtures.ctxHandler) Fixtures.populated r' st1 /\
    (Slog.Time r', Slog.Message r', Slog.Level r', Slog.PC r')
      = (1703517559, "Logging customer data", Slog.LevelInfo, 0) /\
    (7 < Slog.NumAttrs r')%nat.
Proof.
  destruct (Handle_passes_the_record_through Fixtures.ctxHandler Fixtures.populated
              Fixtures.record7 Fixtures.st7) as (r' & st1 & Hrun & Hsame & Hnum & _).
  - stringly_by_computation.
  - wf_by_computation.
  - exists r', st1. split; [exact Hrun|]. split; [exact Hsame | exact Hnum].
Defined.

(** X9 on a record without attributes. *)
Lemma Handle_small_record0 :
  Logger.Handle Fixtures.ctxHandler Fixtures.populated Fixtures.record0 MemSink.st0
  = Slog.Handle (Logger.Handler Fixtures.ctxHandler) Fixtures.populated
      (Slog.push_front Fixtures.record0 (Spec.meta_information Fixtures.populated)) MemSink.st0 /\
  Slog.heap (Logger.Handle Fixtures.ctxHandler Fixtures.populated Fixtures.record0 MemSink.st0).2
  = [].
Proof.
  assert (Hrun := Handle_small_record Fixtures.ctxHandler Fixtures.populated Fixtures.record0
                    MemSink.st0).
  split; [|reflexivity]. apply Hrun.
  - stringly_by_computation.
  - wf_by_computation.
  - unfold Slog.nAttrsInline. simpl. lia.
Defined.

(** X10 on the record with seven attributes, whose array of four cells holds
    two. *)
Lemma Handle_writes_the_array_of_record7 :
  let st' := (Logger.Handle Fixtures.ctxHandler Fixtures.populated Fixtures.record7 Fixtures.st7).2 in
  Slog.array_of (Slog.heap st') (Slog.back Fixtures.record7) !! 2%nat
    = Some (Spec.meta_information Fixtures.populated) /\
  Slog.modified_copy (Slog.heap st') (Slog.back Fixtures.record7) = true.
Proof.
  intros st'.
  destruct (Handle_writes_the_shared_array Fixtures.ctxHandler Fixtures.populated
              Fixtures.record7 Fixtures.st7 MemSink_frame_respecting) as (Hcell & Hmod & _).
  - stringly_by_computation.
  - wf_by_computation.
  - simpl. lia.
  - reflexivity.
  - split; [exact Hcell | exact Hmod].
Defined.

(** X11 on the handler of main() wrapped once more. *)
Lemma nested_decorators_on_record0 :
  exists r2 st2,
    Logger.Handle (Logger.mkContextHandler Fixtures.ctxHandler) Fixtures.populated
      Fixtures.record0 MemSink.st0
    = Slog.Handle (Logger.Handler Fixtures.ctxHandler) Fixtures.populated r2 st2 /\
    Slog.Attrs (Slog.heap st2) r2 =
      [Spec.meta_information Fixtures.populated; Spec.meta_information Fixtures.populated].
Proof.
  destruct (nested_decorators_append_twice Fixtures.ctxHandler Fixtures.populated
              Fixtures.record0 MemSink.st0) as (r1 & st1 & r2 & st2 & _ & Hrun & _ & Hsmall).
  - stringly_by_computation.
  - wf_by_computation.
  - exists r2, st2. split; [exact Hrun|]. apply Hsmall.
    unfold Slog.nAttrsInline. simpl. lia.
Defined.


(** X14 on the handler of main() over the in-memory sink. *)
Lemma Handle_writes_only_past_the_end_of_record7 :
  Spec.frame (Slog.heap Fixtures.st7)
    (Slog.heap (Logger.Handle Fixtures.ctxHandler Fixtures.populated Fixtures.record7 Fixtures.st7).2)
    (Slog.back Fixtures.record7).
Proof.
  destruct (Handle_writes_only_past_the_end Fixtures.ctxHandler Fixtures.populated
              Fixtures.record7 Fixtures.st7 MemSink_frame_respecting) as [Hframe _].
  - wf_by_computation.
  - exact Hframe.
Defined.
